(** * CallShift: on-call assignment and PIN authentication (app.py)

    A shallow embedding of the Flask backend [app.py]: the sliding-window
    rate limiter [rate_limited], the [/authenticate] handler, the ledger
    transition [set_on_call_number] and the query [get_current_oncall],
    over an explicit model of the three PostgreSQL relations, of psycopg2
    connections (implicit transaction, commit, close, exceptions) and of
    the outbound [requests.post] call.

    Conventions.
    - Timestamps ([time.time()], [CURRENT_TIMESTAMP], [datetime.now()]) are
      integers of one common unit; [RATE_PERIOD] is 60 of them.
    - Everything the handlers read from their surroundings (the clock, which
      database call raises and with what message, how the telephony provider
      answers) is an explicit input of the model.
    - [logger] calls have no effect on any modelled state and are left out. *)

From Stdlib Require Import ZArith Ascii String List Lia.
From stdpp Require Import base relations gmap strings list sorting pretty.

Local Open Scope string_scope.

(** ** JSON values and HTTP responses *)

#[warnings="-register-all"]
Inductive json : Type :=
  | JNull
  | JStr (s : string)
  | JInt (n : Z)
  | JTime (t : Z)
  | JObj (fields : list (string * json)).

Definition json_opt_str (o : option string) : json :=
  match o with Some s => JStr s | None => JNull end.

Definition json_opt_time (o : option Z) : json :=
  match o with Some t => JTime t | None => JNull end.

Definition json_opt_int (o : option Z) : json :=
  match o with Some n => JInt n | None => JNull end.

(** What a Flask view returns: [jsonify(...)] alone is status 200. *)
Record response := mk_response { status_code : Z; body : json }.

Definition jsonify (j : json) : response := mk_response 200 j.

(** ** The persisted schema ([init_db]) *)

Record user := mk_user {
  u_id : Z;
  u_pin : string;
  u_phone : string;
  u_name : option string;
  u_email : option string;
  u_division : string;
  u_created_at : option Z;
  u_last_login : option Z }.

Record on_call_row := mk_on_call {
  oc_id : Z;
  oc_phone : string;
  oc_user_id : option Z;
  oc_division : string;
  oc_start_time : option Z;
  oc_end_time : option Z }.

Record audit_row := mk_audit {
  au_id : Z;
  au_event_type : string;
  au_user_id : option Z;
  au_details : option string;
  au_ip_address : option string;
  au_timestamp : option Z }.

(** The rows of the three relations, in table order. *)
Record tables := mk_tables {
  users : list user;
  on_call : list on_call_row;
  audit_log : list audit_row }.

(** The SERIAL counters.  A sequence is not transactional: a value drawn
    inside a transaction that is later abandoned is not given back. *)
Record sequences := mk_sequences {
  on_call_id_seq : Z;
  audit_log_id_seq : Z }.

(** ** Inputs from the surroundings *)

(** One psycopg2 connection: the value [CURRENT_TIMESTAMP] has in its
    transaction, and, when [conn_fault = Some (n, msg)], the n-th call
    made on it (0 is [psycopg2.connect] itself, then every [execute],
    [commit] and [close] in program order) raises with message [msg]. *)
Record conn_env := mk_conn_env {
  current_timestamp : Z;
  conn_fault : option (nat * string) }.

(** How the telephony provider behaves on the outbound request: it answers
    with a status and a body that parses as JSON ([inl]) or does not
    ([inr], the decoder's message), the transport fails, or it accepts the
    connection and never answers. *)
Inductive provider : Type :=
  | Responds (code : Z) (data : json + string)
  | Fails (err : string)
  | Stalls.

Record http_request := mk_http_request {
  url : string;
  json_payload : json;
  headers : list (string * string);
  timeout : option Z }.

Record http_response := mk_http_response {
  resp_status_code : Z;
  resp_json : json + string }.

(** The incoming Flask request, as far as the handlers read it. *)
Record request := mk_request {
  remote_addr : string;
  form_pin : option string;
  form_caller_id : option string;
  args_division : option string }.

(** ** Program state and the handler monad *)

Inductive effect : Type :=
  | EDigest
  | EConnect
  | EExecute
  | ECommit
  | EClose
  | EHttpPost (r : http_request).

(** An open connection: its inputs, the rows as its transaction sees them,
    and the number of calls made on it so far. *)
Record connection := mk_connection {
  conn_env_of : conn_env;
  conn_tables : tables;
  conn_calls : nat }.

Record state := mk_state {
  ip_request_counter : gmap string (list Z);
  committed : tables;
  seqs : sequences;
  conn : option connection;
  effects : list effect }.

Definition set_counter (c : gmap string (list Z)) (s : state) : state :=
  mk_state c (committed s) (seqs s) (conn s) (effects s).
Definition set_committed (t : tables) (s : state) : state :=
  mk_state (ip_request_counter s) t (seqs s) (conn s) (effects s).
Definition set_seqs (q : sequences) (s : state) : state :=
  mk_state (ip_request_counter s) (committed s) q (conn s) (effects s).
Definition set_conn (c : option connection) (s : state) : state :=
  mk_state (ip_request_counter s) (committed s) (seqs s) c (effects s).
Definition log_effect (e : effect) (s : state) : state :=
  mk_state (ip_request_counter s) (committed s) (seqs s) (conn s)
           (effects s ++ [e]).

(** A computation returns, raises a Python exception (kept as [str(e)]),
    or never returns. *)
Inductive result (A : Type) : Type :=
  | Ok (a : A)
  | Raise (msg : string)
  | Hang.
Arguments Ok {A} a.
Arguments Raise {A} msg.
Arguments Hang {A}.

Definition M (A : Type) : Type := state -> result A * state.

Definition ret {A} (a : A) : M A := fun s => (Ok a, s).

Definition raise {A} (msg : string) : M A := fun s => (Raise msg, s).

Definition bind {A B} (m : M A) (k : A -> M B) : M B :=
  fun s =>
    match m s with
    | (Ok a, s') => k a s'
    | (Raise msg, s') => (Raise msg, s')
    | (Hang, s') => (Hang, s')
    end.

(** [try: m except Exception as e: h e] *)
Definition try_except {A} (m : M A) (h : string -> M A) : M A :=
  fun s =>
    match m s with
    | (Raise msg, s') => h msg s'
    | r => r
    end.

Declare Scope py_scope.
Delimit Scope py_scope with py.
Notation "x <- m ;; k" := (bind m (fun x => k))
  (at level 20, m at level 99, k at level 200, only parsing) : py_scope.
Notation "m ;;; k" := (bind m (fun _ => k))
  (at level 100, k at level 200, only parsing, right associativity) : py_scope.
Local Open Scope py_scope.

(** ** psycopg2 *)

(** A data-modifying statement: from the transaction's timestamp, the rows
    and the sequences, the new rows or the constraint violation it raises,
    and the sequences as they are left. *)
Definition statement : Type :=
  Z -> tables -> sequences -> (tables + string) * sequences.

Definition fault_now (e : conn_env) (n : nat) : option string :=
  match conn_fault e with
  | Some (k, msg) => if Nat.eqb k n then Some msg else None
  | None => None
  end.

(** [psycopg2.connect(...)]: call number 0 of the new connection.  A
    connection left behind by an earlier exception is dropped with its
    uncommitted work. *)
Definition get_db_connection (e : conn_env) : M unit :=
  fun s =>
    let s := log_effect EConnect s in
    match fault_now e 0 with
    | Some msg => (Raise msg, set_conn None s)
    | None => (Ok tt, set_conn (Some (mk_connection e (committed s) 1)) s)
    end.

(** One call on the open connection: count it, raise if it is the faulty
    one, otherwise run it. *)
Definition on_conn {A} (what : effect)
    (run : connection -> state -> result A * state) : M A :=
  fun s =>
    match conn s with
    | None => (Raise "connection already closed", s)
    | Some c =>
        let c' := mk_connection (conn_env_of c) (conn_tables c)
                                (S (conn_calls c)) in
        let s := set_conn (Some c') (log_effect what s) in
        match fault_now (conn_env_of c) (conn_calls c) with
        | Some msg => (Raise msg, s)
        | None => run c' s
        end
    end.

(** [cursor.execute(<INSERT or UPDATE>)] *)
Definition execute (q : statement) : M unit :=
  on_conn EExecute (fun c s =>
    match q (current_timestamp (conn_env_of c)) (conn_tables c) (seqs s) with
    | (inl t, sq) =>
        (Ok tt, set_conn (Some (mk_connection (conn_env_of c) t (conn_calls c)))
                         (set_seqs sq s))
    | (inr msg, sq) => (Raise msg, set_seqs sq s)
    end).

(** [cursor.execute(<SELECT>)] followed by [cursor.fetchone()] *)
Definition execute_fetchone {A} (q : tables -> option A) : M (option A) :=
  on_conn EExecute (fun c s => (Ok (q (conn_tables c)), s)).

(** [conn.commit()] *)
Definition commit : M unit :=
  on_conn ECommit (fun c s => (Ok tt, set_committed (conn_tables c) s)).

(** [conn.close()] *)
Definition close : M unit :=
  on_conn EClose (fun c s => (Ok tt, set_conn None s)).

(** ** requests *)

(** [requests.post(url, json=..., headers=..., timeout=...)].  Without a
    [timeout] argument the call waits for the provider's answer for as long
    as it takes. *)
Definition requests_post (p : provider) (r : http_request) : M http_response :=
  fun s =>
    let s := log_effect (EHttpPost r) s in
    match p with
    | Responds code data => (Ok (mk_http_response code data), s)
    | Fails err => (Raise err, s)
    | Stalls =>
        match timeout r with
        | Some _ => (Raise "Read timed out.", s)
        | None => (Hang, s)
        end
    end.

(** [response.json()] *)
Definition response_json (r : http_response) : M json :=
  match resp_json r with
  | inl j => ret j
  | inr err => raise err
  end.

(** ** The SQL statements of app.py *)

(** A nullable [user_id] column with [FOREIGN KEY (user_id) REFERENCES users(id)]. *)
Definition references_user (o : option Z) (t : tables) : Prop :=
  match o with
  | None => True
  | Some i => i ∈ (u_id <$> users t)
  end.

#[global] Instance references_user_dec o t : Decision (references_user o t).
Proof. destruct o; simpl; apply _. Defined.

Definition fk_violation : string :=
  "insert or update violates foreign key constraint".

(** [SELECT id, phone, name, division FROM users WHERE pin = %s] and
    [fetchone()]: the first matching row in table order. *)
Definition select_user_by_pin (hashed : string) (t : tables) : option user :=
  head (filter (fun u => u_pin u = hashed) (users t)).

Definition touch_last_login (now : Z) (u : user) : user :=
  mk_user (u_id u) (u_pin u) (u_phone u) (u_name u) (u_email u)
          (u_division u) (u_created_at u) (Some now).

(** [UPDATE users SET last_login = CURRENT_TIMESTAMP WHERE id = %s] *)
Definition update_last_login (user_id : Z) : statement :=
  fun now t sq =>
    (inl (mk_tables
            ((fun u => if decide (u_id u = user_id)
                       then touch_last_login now u else u) <$> users t)
            (on_call t) (audit_log t)),
     sq).

(** [INSERT INTO audit_log (event_type, user_id, details, ip_address)
     VALUES (...)]; the variant without [user_id] stores NULL there. *)
Definition insert_audit_log (event_type : string) (user_id : option Z)
    (details ip_address : string) : statement :=
  fun now t sq =>
    let id := (audit_log_id_seq sq + 1)%Z in
    let sq' := mk_sequences (on_call_id_seq sq) id in
    if decide (references_user user_id t)
    then (inl (mk_tables (users t) (on_call t)
                 (audit_log t ++
                  [mk_audit id event_type user_id (Some details)
                            (Some ip_address) (Some now)])),
          sq')
    else (inr fk_violation, sq').

Definition is_open_for (division : string) (o : on_call_row) : Prop :=
  oc_end_time o = None ∧ oc_division o = division.

#[global] Instance is_open_for_dec d o : Decision (is_open_for d o).
Proof. unfold is_open_for; apply _. Defined.

Definition end_row (now : Z) (o : on_call_row) : on_call_row :=
  mk_on_call (oc_id o) (oc_phone o) (oc_user_id o) (oc_division o)
             (oc_start_time o) (Some now).

(** [UPDATE on_call SET end_time = CURRENT_TIMESTAMP
      WHERE end_time IS NULL AND division = %s] *)
Definition archive_on_call (division : string) : statement :=
  fun now t sq =>
    (inl (mk_tables (users t)
            ((fun o => if decide (is_open_for division o)
                       then end_row now o else o) <$> on_call t)
            (audit_log t)),
     sq).

(** [INSERT INTO on_call (phone, user_id, division) VALUES (%s, %s, %s)]:
    [id] from the sequence, [start_time] by its default, [end_time] NULL. *)
Definition insert_on_call (phone : string) (user_id : Z) (division : string)
    : statement :=
  fun now t sq =>
    let id := (on_call_id_seq sq + 1)%Z in
    let sq' := mk_sequences id (audit_log_id_seq sq) in
    if decide (references_user (Some user_id) t)
    then (inl (mk_tables (users t)
                 (on_call t ++
                  [mk_on_call id phone (Some user_id) division (Some now) None])
                 (audit_log t)),
          sq')
    else (inr fk_violation, sq').

(** A row of the query in [get_current_oncall]. *)
Record on_call_view := mk_view {
  v_phone : string;
  v_start_time : option Z;
  v_name : option string;
  v_user_id : Z;
  v_division : string }.

(** [r] sorts strictly before [b] under [ORDER BY start_time DESC]
    (PostgreSQL places NULL first in descending order). *)
Definition sorts_before (r b : on_call_view) : Prop :=
  match v_start_time r, v_start_time b with
  | None, Some _ => True
  | Some x, Some y => (y < x)%Z
  | _, _ => False
  end.

#[global] Instance sorts_before_dec r b : Decision (sorts_before r b).
Proof. unfold sorts_before; destruct (v_start_time r), (v_start_time b); apply _. Defined.

(** [ORDER BY start_time DESC LIMIT 1]; among equal keys the row met
    first is kept. *)
Definition order_desc_limit_1 (rows : list on_call_view) : option on_call_view :=
  foldl (fun best r =>
           match best with
           | None => Some r
           | Some b => if decide (sorts_before r b) then Some r else Some b
           end) None rows.

(** [SELECT o.phone, o.start_time, u.name, u.id AS user_id, o.division
      FROM on_call o JOIN users u ON o.user_id = u.id
      WHERE o.end_time IS NULL AND o.division = %s
      ORDER BY o.start_time DESC LIMIT 1] *)
Definition select_current_on_call (division : string) (t : tables)
    : option on_call_view :=
  order_desc_limit_1
    (o ← filter (is_open_for division) (on_call t);
     u ← filter (fun u => oc_user_id o = Some (u_id u)) (users t);
     [mk_view (oc_phone o) (oc_start_time o) (u_name u) (u_id u)
              (oc_division o)]).

(** ** app.py *)

(** What one call of [set_on_call_number] meets: its database connection,
    the provider, and the value of [datetime.now()]. *)
Record assign_env := mk_assign_env {
  on_call_conn : conn_env;
  telepo : provider;
  datetime_now : Z }.

(** What one call of [authenticate] meets. *)
Record auth_env := mk_auth_env {
  users_conn : conn_env;
  assign : assign_env }.

Definition RATE_LIMIT : nat := 5.
Definition RATE_PERIOD : Z := 60.

Definition rate_limit_exceeded : response :=
  mk_response 429
    (JObj [("status", JStr "error"); ("message", JStr "Rate limit exceeded")]).

(** The timestamps of [ip] that [rate_limited] keeps at [current_time]. *)
Definition recent (current_time : Z) (stamps : list Z) : list Z :=
  filter (fun t => (current_time - t < RATE_PERIOD)%Z) stamps.

(** The decorator [rate_limited]; [current_time] is [time.time()]. *)
Definition rate_limited (f : request -> M response) (current_time : Z)
    (rq : request) : M response :=
  fun s =>
    let ip := remote_addr rq in
    let counter := ip_request_counter s in
    let counter :=
      match counter !! ip with
      | None => <[ip := []]> counter
      | Some _ => counter
      end in
    let counter := <[ip := recent current_time (default [] (counter !! ip))]> counter in
    if decide (RATE_LIMIT ≤ length (default [] (counter !! ip)))%nat
    then (Ok rate_limit_exceeded, set_counter counter s)
    else
      f rq (set_counter
              (<[ip := (default [] (counter !! ip) ++ [current_time])%list]> counter) s).

(** [hashlib.sha256(...).hexdigest()], the environment variable [PIN_SALT]
    and the two [app.config] entries for the provider. *)
Record config := mk_config {
  sha256_hexdigest : string -> string;
  PIN_SALT : string;
  TELEPO_API_URL : string;
  TELEPO_API_KEY : string }.

Section App.

Variable cfg : config.

(** [hashlib.sha256((pin + salt).encode()).hexdigest()] *)
Definition salted_digest (pin : string) : string :=
  sha256_hexdigest cfg (pin +:+ PIN_SALT cfg).

(** [hash_pin(pin)]: returns [salted_digest pin]; that a digest was
    computed is recorded among the effects. *)
Definition hash_pin (pin : string) : M string :=
  fun s => (Ok (salted_digest pin), log_effect EDigest s).

Definition telepo_request (phone_number : string) (user_id : Z)
    (division : string) (updated_at : Z) : http_request :=
  mk_http_request (TELEPO_API_URL cfg)
    (JObj [("phone_number", JStr phone_number);
           ("division", JStr division);
           ("updated_at", JTime updated_at);
           ("user_id", JInt user_id)])
    [("Authorization", "Bearer " +:+ TELEPO_API_KEY cfg)]
    None.

Definition error_dict (msg : string) : json :=
  JObj [("status", JStr "error"); ("message", JStr msg)].

Definition on_call_details (phone_number division : string) : string :=
  "New on-call: " +:+ phone_number +:+ " (division=" +:+ division +:+ ")".

Definition set_on_call_number (phone_number : string) (user_id : Z)
    (division ip_address : string) (e : assign_env) : M json :=
  try_except
    (get_db_connection (on_call_conn e) ;;;
     execute (archive_on_call division) ;;;
     execute (insert_on_call phone_number user_id division) ;;;
     execute (insert_audit_log "on_call_update" (Some user_id)
                (on_call_details phone_number division) ip_address) ;;;
     commit ;;;
     close ;;;
     try_except
       (response <- requests_post (telepo e)
                      (telepo_request phone_number user_id division
                         (datetime_now e)) ;;
        response_data <- response_json response ;;
        if decide (resp_status_code response ≠ 200%Z)
        then ret (error_dict "API update failed")
        else ret (JObj [("status", JStr "success");
                        ("data", response_data)]))
       (fun api_err => ret (error_dict api_err)))
    (fun db_err => ret (error_dict db_err)).

Definition pin_required : response :=
  mk_response 400
    (JObj [("status", JStr "failure"); ("message", JStr "PIN required")]).

Definition invalid_pin : response :=
  mk_response 403
    (JObj [("status", JStr "failure"); ("message", JStr "Invalid PIN")]).

Definition server_error (msg : string) : response :=
  mk_response 500 (error_dict msg).

Definition on_call_updated (phone_number division : string) (result : json)
    : response :=
  jsonify
    (JObj [("status", JStr "success");
           ("message",
            JStr ("On-call number updated to " +:+ phone_number +:+
                  " (division: " +:+ division +:+ ")"));
           ("telepo_result", result)]).

(** The view function [authenticate], below its decorator. *)
Definition authenticate (e : auth_env) (rq : request) : M response :=
  let caller_id := default "unknown" (form_caller_id rq) in
  let ip_address := remote_addr rq in
  match form_pin rq with
  | None | Some "" => ret pin_required
  | Some pin =>
      hashed <- hash_pin pin ;;
      try_except
        (get_db_connection (users_conn e) ;;;
         user <- execute_fetchone (select_user_by_pin hashed) ;;
         match user with
         | None =>
             execute (insert_audit_log "failed_auth" None
                        ("Caller ID: " +:+ caller_id) ip_address) ;;;
             commit ;;;
             close ;;;
             ret invalid_pin
         | Some user =>
             let user_id := u_id user in
             let phone_number := u_phone user in
             let user_division := u_division user in
             execute (update_last_login user_id) ;;;
             execute (insert_audit_log "successful_auth" (Some user_id)
                        ("Caller ID: " +:+ caller_id) ip_address) ;;;
             commit ;;;
             close ;;;
             result <- set_on_call_number phone_number user_id
                         user_division ip_address (assign e) ;;
             ret (on_call_updated phone_number user_division result)
         end)
        (fun err => ret (server_error err))
  end.

(** [/authenticate] as registered: [@rate_limited] around the view. *)
Definition authenticate_route (current_time : Z) (e : auth_env)
    : request -> M response :=
  rate_limited (authenticate e) current_time.

Definition no_on_call (division : string) : response :=
  mk_response 404
    (error_dict ("No on-call user set for division=" +:+ division)).

Definition on_call_found (row : on_call_view) : response :=
  jsonify
    (JObj [("status", JStr "success");
           ("on_call",
            JObj [("phone", JStr (v_phone row));
                  ("start_time", json_opt_time (v_start_time row));
                  ("name", json_opt_str (v_name row));
                  ("user_id", JInt (v_user_id row));
                  ("division", JStr (v_division row))])]).

(** [/api/oncall] *)
Definition get_current_oncall (e : conn_env) (rq : request) : M response :=
  let division := default "retic_water" (args_division rq) in
  try_except
    (get_db_connection e ;;;
     row <- execute_fetchone (select_current_on_call division) ;;
     close ;;;
     match row with
     | Some row => ret (on_call_found row)
     | None => ret (no_on_call division)
     end)
    (fun err => ret (server_error err)).




End App.

Arguments set_on_call_number : simpl never.
Arguments authenticate : simpl never.
Arguments get_current_oncall : simpl never.

(** * Vocabulary of the properties *)

(** [m] returns the dictionary [ip_request_counter] as it found it. *)
Definition keeps_counter {A} (m : M A) : Prop :=
  forall s, ip_request_counter (m s).2 = ip_request_counter s.

(** Requests to [/authenticate] served one after the other, each with the
    value of [time.time()] and the surroundings it meets. *)
Fixpoint serve (cfg : config) (reqs : list (Z * auth_env * request)) (s : state)
    : list (result response) * state :=
  match reqs with
  | [] => ([], s)
  | (now, e, rq) :: reqs =>
      let r := authenticate_route cfg now e rq s in
      let rs := serve cfg reqs r.2 in
      (r.1 :: rs.1, rs.2)
  end.

(** Every address has at most [RATE_LIMIT] recorded timestamps. *)
Definition counter_bounded (c : gmap string (list Z)) : Prop :=
  forall ip stamps, c !! ip = Some stamps -> (length stamps <= RATE_LIMIT)%nat.

(** The rows once steps 1-3 of an assignment are all in: every open row of
    the division ended at [now], one new open row, one [on_call_update]
    audit entry. *)
Definition assigned (phone : string) (uid : Z) (division ip : string)
    (now : Z) (sq : sequences) (t : tables) : tables :=
  mk_tables (users t)
    (((fun o => if decide (is_open_for division o) then end_row now o else o)
        <$> on_call t) ++
     [mk_on_call (on_call_id_seq sq + 1) phone (Some uid) division
                 (Some now) None])
    (audit_log t ++
     [mk_audit (audit_log_id_seq sq + 1) "on_call_update" (Some uid)
               (Some (on_call_details phone division)) (Some ip) (Some now)]).

Definition after_assign (sq : sequences) : sequences :=
  mk_sequences (on_call_id_seq sq + 1) (audit_log_id_seq sq + 1).

(** What the provider's behaviour makes [set_on_call_number] return. *)
Definition telepo_result (p : provider) : result json :=
  match p with
  | Responds code (inl data) =>
      if decide (code = 200%Z)
      then Ok (JObj [("status", JStr "success"); ("data", data)])
      else Ok (error_dict "API update failed")
  | Responds _ (inr err) => Ok (error_dict err)
  | Fails err => Ok (error_dict err)
  | Stalls => Hang
  end.

Definition open_rows (division : string) (t : tables) : list on_call_row :=
  filter (is_open_for division) (on_call t).

(** At most one open row per division. *)
Definition ledger_invariant (t : tables) : Prop :=
  forall division, (length (open_rows division t) <= 1)%nat.

(** The rows after the first transaction of a successful [authenticate]:
    [last_login] of the user set and one [successful_auth] audit entry. *)
Definition logged_in (u : user) (caller_id ip : string) (now : Z)
    (sq : sequences) (t : tables) : tables :=
  mk_tables
    ((fun u' => if decide (u_id u' = u_id u)
                then touch_last_login now u' else u') <$> users t)
    (on_call t)
    (audit_log t ++
     [mk_audit (audit_log_id_seq sq + 1) "successful_auth" (Some (u_id u))
               (Some ("Caller ID: " +:+ caller_id)) (Some ip) (Some now)]).

Definition after_audit (sq : sequences) : sequences :=
  mk_sequences (on_call_id_seq sq) (audit_log_id_seq sq + 1).

(** The rows after a rejected PIN: one [failed_auth] audit entry more. *)
Definition auth_failed (caller_id ip : string) (now : Z) (sq : sequences)
    (t : tables) : tables :=
  mk_tables (users t) (on_call t)
    (audit_log t ++
     [mk_audit (audit_log_id_seq sq + 1) "failed_auth" None
               (Some ("Caller ID: " +:+ caller_id)) (Some ip) (Some now)]).

(** One operation of the system, run to its end. *)
Inductive step (cfg : config) : state -> state -> Prop :=
  | step_authenticate now e rq s :
      step cfg s (authenticate_route cfg now e rq s).2
  | step_assign phone uid division ip e s :
      step cfg s (set_on_call_number cfg phone uid division ip e s).2
  | step_query e rq s :
      step cfg s (get_current_oncall e rq s).2.

(** None of the first [k] calls on the connection raises. *)
Definition no_fault_before (k : nat) (e : conn_env) : Prop :=
  match conn_fault e with
  | Some (n, _) => (k <= n)%nat
  | None => True
  end.

(** ** A seeded installation, for running the model

    The two users of [seed_db.py] and the default configuration.  The
    digest is a stand-in that only tags its input: it keeps distinct PINs
    distinct, which is all the runs below rely on. *)

Definition demo_cfg : config :=
  mk_config (fun s => "sha256:" +:+ s) "default_salt_value"
            "https://telepo-api.example.com/update" "your_api_key_here".

Definition admin_user : user :=
  mk_user 1 (salted_digest demo_cfg "1234") "+15551234567"
          (Some "Admin User") (Some "admin@example.com") "retic_water"
          (Some 0%Z) None.

Definition support_lead : user :=
  mk_user 2 (salted_digest demo_cfg "5678") "+15559876543"
          (Some "Support Team Lead") (Some "support@example.com")
          "surface_water" (Some 0%Z) None.

Definition seeded : state :=
  mk_state ∅ (mk_tables [admin_user; support_lead] [] []) (mk_sequences 0 0)
           None [].

(** A connection on which nothing goes wrong. *)
Definition working (now : Z) : conn_env := mk_conn_env now None.

(** A connection that cannot be opened. *)
Definition unreachable (now : Z) : conn_env :=
  mk_conn_env now (Some (0%nat, "could not connect to server")).

Definition accepting : provider := Responds 200 (inl (JObj [])).

Definition call (ip : string) (pin : option string) : request :=
  mk_request ip pin None None.

Definition ask (division : string) : request :=
  mk_request "10.0.0.9" None None (Some division).

(** A second user provisioned with the PIN of [admin_user], in the same
    division, reachable at another number. *)
Definition deputy_user : user :=
  mk_user 3 (salted_digest demo_cfg "1234") "+15550001111"
          (Some "Deputy") None "retic_water" (Some 0%Z) None.

Definition shared_pin : state :=
  mk_state ∅ (mk_tables [admin_user; support_lead; deputy_user] [] [])
           (mk_sequences 0 0) None [].

(** One authentication with every collaborator working. *)
Definition smooth : auth_env :=
  mk_auth_env (working 100) (mk_assign_env (working 101) accepting 102).

(** The seeded installation after some service: an ended turn for
    [retic_water], the open rows of [surface_water] and [retic_water], and
    two audit entries. *)
Definition in_service : state :=
  mk_state ∅
    (mk_tables [admin_user; support_lead]
       [mk_on_call 1 "+15550000000" (Some 1%Z) "retic_water"
                   (Some 10%Z) (Some 30%Z);
        mk_on_call 2 "+15559876543" (Some 2%Z) "surface_water"
                   (Some 20%Z) None;
        mk_on_call 3 "+15551234567" (Some 1%Z) "retic_water"
                   (Some 30%Z) None]
       [mk_audit 1 "successful_auth" (Some 1%Z) (Some "Caller ID: unknown")
                 (Some "10.0.0.1") (Some 29%Z);
        mk_audit 2 "on_call_update" (Some 1%Z)
                 (Some "New on-call: +15551234567 (division=retic_water)")
                 (Some "10.0.0.1") (Some 30%Z)])
    (mk_sequences 3 2) None [].

(** A connection on which the fourth call, the audit [INSERT] of
    [set_on_call_number], raises. *)
Definition audit_insert_fails (now : Z) : conn_env :=
  mk_conn_env now (Some (3%nat, "could not extend file: disk full")).

(** * The rest of app.py: the token-protected API

    The members of a JSON request body are strings or null; bodies with
    members of other JSON types are outside this model. *)

(** ** Python strings *)

(** [s.split(sep)], [sep] not empty: the pieces between the occurrences of
    [sep], found from the left and not overlapping.  [skip] characters of
    an occurrence are still to be passed over, [piece] is the piece read
    so far. *)
Fixpoint split_from (sep s : string) (skip : nat) (piece : string)
    : list string :=
  match s with
  | EmptyString => [piece]
  | String c s' =>
      match skip with
      | S k => split_from sep s' k piece
      | O =>
          if String.prefix sep s
          then piece :: split_from sep s' (String.length sep - 1) ""
          else split_from sep s' 0 (piece +:+ String c "")
      end
  end.

Definition str_split (sep s : string) : list string := split_from sep s 0 "".

(** [str(x)] of a string or [None] inside an f-string. *)
Definition py_str (o : option string) : string := default "None" o.

(** ** Requests and answers *)

Record api_request := mk_api_request {
  api_remote_addr : string;
  header_authorization : option string;
  basic_authorization : option (option string * option string);
  request_json : option (gmap string (option string)) }.

(** What a view of the API returns: a status with a JSON object, or, for
    the two listings, status 200 with [{"users": rows}]. *)
Inductive answer : Type :=
  | Answer (r : response)
  | UserList (rows : list json).

(** [SECRET_KEY], [ADMIN_PASSWORD], the two functions of the [jwt] module
    ([encode] of the payload [user], [exp] under a key; whether [decode] of
    a token under a key returns at a given time, rather than raising) and
    [str] on a request body. *)
Record admin_config := mk_admin_config {
  SECRET_KEY : string;
  ADMIN_PASSWORD : string;
  jwt_encode : string -> Z -> string -> string;
  jwt_decode : string -> string -> Z -> bool;
  dict_str : gmap string (option string) -> string }.

(** What one call of a protected view meets: the clock, its database
    connection, and the value the sequence of [users.id] hands out. *)
Record admin_env := mk_admin_env {
  admin_now : Z;
  admin_conn : conn_env;
  next_user_id : Z }.

(** ** More of psycopg2 *)

(** [cursor.execute(<... RETURNING ...>)] followed by [cursor.fetchone()] *)
Definition execute_returning {A}
    (q : Z -> tables -> sequences -> (tables * A + string) * sequences)
    : M A :=
  on_conn EExecute (fun c s =>
    match q (current_timestamp (conn_env_of c)) (conn_tables c) (seqs s) with
    | (inl (t, a), sq) =>
        (Ok a, set_conn (Some (mk_connection (conn_env_of c) t (conn_calls c)))
                        (set_seqs sq s))
    | (inr msg, sq) => (Raise msg, set_seqs sq s)
    end).

(** [conn.rollback()]: the transaction's rows are dropped.  It is a call
    on the connection like a statement and is recorded as one. *)
Definition rollback : M unit :=
  on_conn EExecute (fun c s =>
    (Ok tt, set_conn (Some (mk_connection (conn_env_of c) (committed s)
                                          (conn_calls c))) s)).

(** ** More statements *)

Definition not_null_violation : string :=
  "null value in column violates not-null constraint".

Definition unique_violation : string :=
  "duplicate key value violates unique constraint".

(** [INSERT INTO users (pin, phone, name, email, division)
     VALUES (...) RETURNING id]: [phone] and [division] are NOT NULL, [id]
    is the primary key, [created_at] takes its default. *)
Definition insert_user (id : Z) (pin : string) (phone name email division : option string)
    : Z -> tables -> sequences -> (tables * Z + string) * sequences :=
  fun now t sq =>
    match phone, division with
    | Some phone, Some division =>
        if decide (id ∈ (u_id <$> users t))
        then (inr unique_violation, sq)
        else (inl (mk_tables
                     (users t ++
                      [mk_user id pin phone name email division (Some now) None])
                     (on_call t) (audit_log t),
                   id),
              sq)
    | _, _ => (inr not_null_violation, sq)
    end.

(** The columns an [UPDATE users SET ...] assigns: [None] leaves a column
    alone, [Some v] sets it to [v] ([Some None] is NULL). *)
Record user_patch := mk_user_patch {
  set_phone : option (option string);
  set_name : option (option string);
  set_email : option (option string);
  set_division : option (option string);
  set_pin : option string }.

(** The patch assigns no column: [fields] is empty. *)
Definition no_columns (p : user_patch) : Prop :=
  set_phone p = None /\ set_name p = None /\ set_email p = None /\
  set_division p = None /\ set_pin p = None.

#[global] Instance no_columns_dec p : Decision (no_columns p).
Proof. unfold no_columns; apply _. Defined.

Definition patched (p : user_patch) (u : user) : user :=
  mk_user (u_id u)
          (default (u_pin u) (set_pin p))
          (match set_phone p with Some (Some v) => v | _ => u_phone u end)
          (default (u_name u) (set_name p))
          (default (u_email u) (set_email p))
          (match set_division p with Some (Some v) => v | _ => u_division u end)
          (u_created_at u) (u_last_login u).

(** [UPDATE users SET <columns> WHERE id = %s RETURNING id] and
    [fetchone()]: NULL for [phone] or [division] is refused when a row is
    to be updated. *)
Definition update_user (p : user_patch) (user_id : Z)
    : Z -> tables -> sequences -> (tables * option Z + string) * sequences :=
  fun now t sq =>
    if decide (user_id ∈ (u_id <$> users t))
    then
      if decide (set_phone p = Some None \/ set_division p = Some None)
      then (inr not_null_violation, sq)
      else (inl (mk_tables
                   ((fun u => if decide (u_id u = user_id)
                              then patched p u else u) <$> users t)
                   (on_call t) (audit_log t),
                 Some user_id),
            sq)
    else (inl (t, None), sq).

(** [cursor.execute(<SELECT>)] followed by [cursor.fetchall()] *)
Definition execute_fetchall {A} (q : tables -> list A) : M (list A) :=
  on_conn EExecute (fun c s => (Ok (q (conn_tables c)), s)).

(** [SELECT id, phone, name, email, division, created_at, last_login
      FROM users] *)
Definition select_users_public (t : tables) : list json :=
  (fun u =>
     JObj [("id", JInt (u_id u)); ("phone", JStr (u_phone u));
           ("name", json_opt_str (u_name u));
           ("email", json_opt_str (u_email u));
           ("division", JStr (u_division u));
           ("created_at", json_opt_time (u_created_at u));
           ("last_login", json_opt_time (u_last_login u))]) <$> users t.

Definition user_row_json (u : user) : json :=
  JObj [("id", JInt (u_id u)); ("pin", JStr (u_pin u));
        ("phone", JStr (u_phone u)); ("name", json_opt_str (u_name u));
        ("email", json_opt_str (u_email u));
        ("division", JStr (u_division u));
        ("created_at", json_opt_time (u_created_at u));
        ("last_login", json_opt_time (u_last_login u))].

Definition id_le (u v : user) : Prop := (u_id u <= u_id v)%Z.

#[global] Instance id_le_dec u v : Decision (id_le u v).
Proof. unfold id_le; apply _. Defined.

#[global] Instance id_le_total : Total id_le.
Proof. intros u v. unfold id_le. lia. Defined.

(** [SELECT * FROM users ORDER BY id ASC] *)
Definition select_users_by_id (t : tables) : list json :=
  user_row_json <$> merge_sort id_le (users t).

(** ** The views *)

Definition missing_token : response :=
  mk_response 401 (JObj [("message", JStr "Missing or invalid token")]).

Definition invalid_token : response :=
  mk_response 401 (JObj [("message", JStr "Invalid token")]).

Definition missing_fields : response :=
  mk_response 400
    (error_dict "Missing required fields (pin, phone, name, division)").

Definition no_update_data : response :=
  mk_response 400 (error_dict "No update data provided").

Definition no_valid_fields : response :=
  mk_response 400 (error_dict "No valid fields to update").

Definition user_created (user_id : Z) : response :=
  mk_response 201
    (JObj [("status", JStr "success");
           ("message", JStr "User created successfully");
           ("user_id", JInt user_id)]).

Definition no_such_user (user_id : Z) : response :=
  mk_response 404
    (error_dict ("No user found with id " +:+ pretty user_id)).

Definition user_updated (user_id : Z) : response :=
  jsonify
    (JObj [("status", JStr "success");
           ("message", JStr ("User " +:+ pretty user_id +:+ " updated"))]).

Definition authentication_required : response :=
  mk_response 401 (JObj [("message", JStr "Authentication required")]).

Definition invalid_credentials : response :=
  mk_response 401 (JObj [("message", JStr "Invalid credentials")]).

(** [pin + salt] with [pin] being [None] *)
Definition none_plus_str : string :=
  "unsupported operand type(s) for +: 'NoneType' and 'str'".

Section Api.

Variable cfg : config.
Variable acfg : admin_config.

(** The decorator [token_required]. *)
Definition token_required (f : admin_env -> api_request -> M answer)
    (e : admin_env) (rq : api_request) : M answer :=
  match header_authorization rq with
  | None => ret (Answer missing_token)
  | Some token =>
      if String.prefix "Bearer " token
      then
        match str_split "Bearer " token !! 1%nat with
        | None => raise "list index out of range"
        | Some token =>
            if jwt_decode acfg token (SECRET_KEY acfg) (admin_now e)
            then f e rq
            else ret (Answer invalid_token)
        end
      else ret (Answer missing_token)
  end.

(** [GET /api/users], below its decorator. *)
Definition get_users (e : admin_env) (rq : api_request) : M answer :=
  try_except
    (get_db_connection (admin_conn e) ;;;
     rows <- execute_fetchall select_users_public ;;
     close ;;;
     ret (UserList rows))
    (fun err => ret (Answer (server_error err))).

(** [GET /admin/users], below its decorator. *)
Definition admin_list_users (e : admin_env) (rq : api_request) : M answer :=
  try_except
    (get_db_connection (admin_conn e) ;;;
     rows <- execute_fetchall select_users_by_id ;;
     close ;;;
     ret (UserList rows))
    (fun err => ret (Answer (server_error err))).

(** [POST /api/users], below its decorator. *)
Definition create_user (e : admin_env) (rq : api_request) : M answer :=
  match request_json rq with
  | None => ret (Answer missing_fields)
  | Some data =>
      match data !! "pin", data !! "phone", data !! "name",
            data !! "division" with
      | Some pin, Some phone, Some name, Some division =>
          match pin with
          | None => raise none_plus_str
          | Some pin =>
              hashed <- hash_pin cfg pin ;;
              try_except
                (get_db_connection (admin_conn e) ;;;
                 user_id <- execute_returning
                              (insert_user (next_user_id e) hashed phone name
                                 (mjoin (data !! "email")) division) ;;
                 execute (insert_audit_log "user_created" (Some user_id)
                            ("New user: " +:+ py_str name +:+ " (division="
                             +:+ py_str division +:+ ")")
                            (api_remote_addr rq)) ;;;
                 commit ;;;
                 close ;;;
                 ret (Answer (user_created user_id)))
                (fun err => ret (Answer (server_error err)))
          end
      | _, _, _, _ => ret (Answer missing_fields)
      end
  end.

(** [PATCH /admin/users/<int:user_id>], below its decorator. *)
Definition admin_update_user (user_id : Z) (e : admin_env) (rq : api_request)
    : M answer :=
  match request_json rq with
  | None => ret (Answer no_update_data)
  | Some data =>
      if decide (data = ∅) then ret (Answer no_update_data)
      else
        hashed <- match data !! "pin" with
                  | None => ret None
                  | Some None => raise none_plus_str
                  | Some (Some pin) => h <- hash_pin cfg pin ;; ret (Some h)
                  end ;;
        let patch :=
          mk_user_patch (data !! "phone") (data !! "name") (data !! "email")
                        (data !! "division") hashed in
        if decide (no_columns patch) then ret (Answer no_valid_fields)
        else
          try_except
            (get_db_connection (admin_conn e) ;;;
             updated <- execute_returning (update_user patch user_id) ;;
             match updated with
             | None =>
                 rollback ;;;
                 close ;;;
                 ret (Answer (no_such_user user_id))
             | Some _ =>
                 execute (insert_audit_log "admin_update_user"
                            (Some user_id) (dict_str acfg data)
                            (api_remote_addr rq)) ;;;
                 commit ;;;
                 close ;;;
                 ret (Answer (user_updated user_id))
             end)
            (fun err => ret (Answer (server_error err)))
  end.

(** [POST /api/token]; [now] is [datetime.utcnow()], a day has 86400
    units. *)
Definition get_token (now : Z) (rq : api_request) : response :=
  match basic_authorization rq with
  | Some (Some username, Some password) =>
      if decide (username = "" \/ password = "")
      then authentication_required
      else if decide (username <> "admin" \/ password <> ADMIN_PASSWORD acfg)
      then invalid_credentials
      else jsonify
             (JObj [("token",
                     JStr (jwt_encode acfg username (now + 86400)
                                      (SECRET_KEY acfg)))])
  | _ => authentication_required
  end.

End Api.

Arguments token_required : simpl never.
Arguments get_users : simpl never.
Arguments admin_list_users : simpl never.
Arguments create_user : simpl never.
Arguments admin_update_user : simpl never.

(** * The IVR client (agi-bin/authenticate.py) *)

Inductive agi_command : Type :=
  | Verbose (msg : string)
  | SetVariable (name value : string)
  | ExecCommand (app arg : string).

(** What the POST to the backend meets: an answer with a status and a
    body that is JSON or not, a failed transport, or no answer at all. *)
Inductive post_outcome : Type :=
  | Replied (code : Z) (data : json + string)
  | Refused (err : string)
  | Silent.

(** One run of the script: the AGI commands issued, the form posted to
    the backend if any, and the status of [sys.exit] if it was called. *)
Record agi_run := mk_agi_run {
  agi_commands : list agi_command;
  agi_posted : option (string * string);
  agi_exit : option Z }.

(** [requests.post(..., timeout=...)] as the client sees it. *)
Definition client_post (timeout : option Z) (o : post_outcome)
    : result http_response :=
  match o with
  | Replied code data => Ok (mk_http_response code data)
  | Refused err => Raise err
  | Silent =>
      match timeout with
      | Some _ => Raise "Read timed out."
      | None => Hang
      end
  end.

(** [j.get(key)]: on an object the member of that name (the last one, had
    the text several), [None] without one; anything else has no [get]. *)
Definition json_get (key : string) (j : json) : option json + string :=
  match j with
  | JObj fields => inl (snd <$> last (filter (fun p => p.1 = key) fields))
  | _ => inr "object has no attribute 'get'"
  end.

(** [main()]; [argv] is [sys.argv[1:]]. *)
Definition main (argv : list string)
    (backend : string -> string -> post_outcome) : result agi_run :=
  let start := Verbose "Starting authentication process" in
  match argv with
  | [] =>
      Ok (mk_agi_run
            [start; Verbose "Error: Missing PIN argument";
             ExecCommand "Playback" "custom/system-error"]
            None (Some 1%Z))
  | pin :: rest =>
      let caller_id := default "unknown" (head rest) in
      let finish cmds :=
        Ok (mk_agi_run (start :: cmds) (Some (pin, caller_id)) None) in
      let system_error err :=
        finish [Verbose ("System error: " +:+ err);
                ExecCommand "Playback" "custom/system-error"] in
      let success :=
        finish [Verbose ("Authentication successful for caller ID: "
                         +:+ caller_id);
                SetVariable "AUTH_RESULT" "success";
                ExecCommand "Goto" "auth_success,1"] in
      let failure :=
        finish [Verbose ("Authentication failed for caller ID: "
                         +:+ caller_id);
                SetVariable "AUTH_RESULT" "failure";
                ExecCommand "Goto" "auth_failure,1"] in
      match client_post (Some 10%Z) (backend pin caller_id) with
      | Ok response =>
          if decide (resp_status_code response = 200%Z)
          then
            match resp_json response with
            | inr err => system_error err
            | inl j =>
                match json_get "status" j with
                | inr err => system_error err
                | inl (Some (JStr status)) =>
                    if decide (status = "success") then success else failure
                | inl _ => failure
                end
            end
          else failure
      | Raise err => system_error err
      | Hang => Hang
      end
  end.

(** What a client gets from Flask for the outcome of a view: its response,
    an error page with status 500 for an exception that left the view, no
    answer while the view does not return. *)
Definition flask_reply (r : result response) : post_outcome :=
  match r with
  | Ok resp => Replied (status_code resp) (inl (body resp))
  | Raise _ => Replied 500 (inr "Expecting value: line 1 column 1 (char 0)")
  | Hang => Silent
  end.

(** The backend in state [s], as the script run on the host [ip] meets it
    at time [now]. *)
Definition backend_at (cfg : config) (now : Z) (e : auth_env) (ip : string)
    (s : state) : string -> string -> post_outcome :=
  fun pin caller_id =>
    flask_reply
      (authenticate_route cfg now e
         (mk_request ip (Some pin) (Some caller_id) None) s).1.

(** * Vocabulary of the further properties *)

(** One request served by the application. *)
Inductive api_step (cfg : config) (acfg : admin_config)
    : state -> state -> Prop :=
  | api_authenticate now e rq s :
      api_step cfg acfg s (authenticate_route cfg now e rq s).2
  | api_oncall e rq s :
      api_step cfg acfg s (get_current_oncall e rq s).2
  | api_get_users e rq s :
      api_step cfg acfg s (token_required acfg get_users e rq s).2
  | api_create_user e rq s :
      api_step cfg acfg s (token_required acfg (create_user cfg) e rq s).2
  | api_admin_list_users e rq s :
      api_step cfg acfg s (token_required acfg admin_list_users e rq s).2
  | api_admin_update_user user_id e rq s :
      api_step cfg acfg s
        (token_required acfg (admin_update_user cfg acfg user_id) e rq s).2.

(** A ledger row and what has become of it: nothing but the end time may
    differ, and an end time once set stays. *)
Definition row_kept (o o' : on_call_row) : Prop :=
  oc_id o' = oc_id o /\ oc_phone o' = oc_phone o /\
  oc_user_id o' = oc_user_id o /\ oc_division o' = oc_division o /\
  oc_start_time o' = oc_start_time o /\
  (oc_end_time o <> None -> oc_end_time o' = oc_end_time o).

(** The later ledger holds every row of the earlier one, in place, and
    possibly more rows after them. *)
Definition ledger_grows (l l' : list on_call_row) : Prop :=
  exists kept more, l' = (kept ++ more)%list /\ Forall2 row_kept l kept.

(** ** Running the API on the seeded installation *)

Definition demo_acfg : admin_config :=
  mk_admin_config "dev_secret_key" "secure_password"
    (fun user exp key => "jwt." +:+ user +:+ "." +:+ key)
    (fun token key now => bool_decide (token = "jwt.admin." +:+ key))
    (fun data => "{...}").

Definition bearer (token : string) (data : option (gmap string (option string)))
    : api_request :=
  mk_api_request "10.0.0.2" (Some ("Bearer " +:+ token)) None data.

Definition demo_token : string := "jwt.admin.dev_secret_key".

Definition at_work (now : Z) (id : Z) : admin_env :=
  mk_admin_env now (working now) id.

Definition new_hire : gmap string (option string) :=
  {[ "pin" := Some "2468"; "phone" := Some "+15552468000";
     "name" := Some "New Hire"; "division" := Some "retic_water" ]}.

(** No character of the string is a space. *)
Fixpoint space_free (s : string) : Prop :=
  match s with
  | EmptyString => True
  | String c s' => c <> " "%char /\ space_free s'
  end.


(** What the query tells about the assignment itself: number, start,
    user and division (the name is read from the user's row). *)
Definition assignment_of (r : on_call_view) : string * option Z * Z * string :=
  (v_phone r, v_start_time r, v_user_id r, v_division r).

(** What a view of the admin API may do to the committed rows: the ledger
    is left alone and audit entries are only added at the end. *)
Definition rows_extended (t t' : tables) : Prop :=
  on_call t' = on_call t /\ audit_log t `prefix_of` audit_log t'.

(** The later rows keep the history of the earlier ones. *)
Definition history_kept (t t' : tables) : Prop :=
  ledger_grows (on_call t) (on_call t')
  /\ audit_log t `prefix_of` audit_log t'.

(** The script returns, and the last AGI command it issued is [cmd]. *)
Definition ends_with (r : result agi_run) (cmd : agi_command) : Prop :=
  exists run, r = Ok run /\ last (agi_commands run) = Some cmd.

Definition phone_change : gmap string (option string) :=
  {[ "phone" := Some "+15550002222" ]}.

Definition pin_change : gmap string (option string) :=
  {[ "pin" := Some "4321" ]}.

(** A connection on which the statement after the connect raises. *)
Definition failing (now : Z) : conn_env :=
  mk_conn_env now (Some (1%nat, "server closed the connection unexpectedly")).

(** The patch that the body [data] asks for, given the digest of its PIN
    if it has one. *)
Definition patch_of (data : gmap string (option string))
    (hashed : option string) : user_patch :=
  mk_user_patch (data !! "phone") (data !! "name") (data !! "email")
                (data !! "division") hashed.

(** The body names a column and gives no null PIN; [hashed] is the digest
    of its PIN if it has one. *)
Definition asks_for (cfg : config) (data : gmap string (option string))
    (hashed : option string) : Prop :=
  (data !! "pin" = None /\ hashed = None /\
   (is_Some (data !! "phone") \/ is_Some (data !! "name") \/
    is_Some (data !! "email") \/ is_Some (data !! "division")))
  \/ (exists pin, data !! "pin" = Some (Some pin) /\
                  hashed = Some (salted_digest cfg pin)).


(** * Properties *)

(** ** What a computation leaves alone *)

Lemma keeps_counter_ret {A} (a : A) : keeps_counter (ret a).
Proof. by intros s. Qed.

Lemma keeps_counter_raise {A} msg : keeps_counter (@raise A msg).
Proof. by intros s. Qed.

Lemma keeps_counter_bind {A B} (m : M A) (k : A -> M B) :
  keeps_counter m -> (forall a, keeps_counter (k a)) -> keeps_counter (bind m k).
Proof.
  intros Hm Hk s. unfold bind. specialize (Hm s).
  destruct (m s) as [[a| |] s1]; simpl in *; try done.
  by rewrite Hk.
Qed.

Lemma keeps_counter_try {A} (m : M A) (h : string -> M A) :
  keeps_counter m -> (forall e, keeps_counter (h e)) ->
  keeps_counter (try_except m h).
Proof.
  intros Hm Hh s. unfold try_except. specialize (Hm s).
  destruct (m s) as [[a|msg|] s1]; simpl in *; try done.
  by rewrite Hh.
Qed.

Lemma keeps_counter_connect e : keeps_counter (get_db_connection e).
Proof. intros s. unfold get_db_connection. by destruct (fault_now e 0). Qed.

Lemma keeps_counter_on_conn {A} what (run : connection -> state -> result A * state) :
  (forall c s, ip_request_counter (run c s).2 = ip_request_counter s) ->
  keeps_counter (on_conn what run).
Proof.
  intros Hrun s. unfold on_conn. destruct (conn s) as [c|]; [|done].
  destruct (fault_now _ _); [done|]. by rewrite Hrun.
Qed.

Lemma keeps_counter_execute q : keeps_counter (execute q).
Proof.
  apply keeps_counter_on_conn. intros c s.
  by destruct (q _ _ _) as [[t|msg] sq].
Qed.

Lemma keeps_counter_fetchone {A} (q : tables -> option A) :
  keeps_counter (execute_fetchone q).
Proof. by apply keeps_counter_on_conn. Qed.

Lemma keeps_counter_commit : keeps_counter commit.
Proof. by apply keeps_counter_on_conn. Qed.

Lemma keeps_counter_close : keeps_counter close.
Proof. by apply keeps_counter_on_conn. Qed.

Lemma keeps_counter_post p r : keeps_counter (requests_post p r).
Proof. intros s. unfold requests_post. by destruct p, (timeout r). Qed.

Lemma keeps_counter_json r : keeps_counter (response_json r).
Proof. intros s. unfold response_json. by destruct (resp_json r). Qed.

Create HintDb frame.
#[global] Hint Resolve keeps_counter_ret keeps_counter_raise keeps_counter_connect
  keeps_counter_execute keeps_counter_fetchone keeps_counter_commit
  keeps_counter_close keeps_counter_post keeps_counter_json : frame.

Ltac frame :=
  repeat first
    [ apply keeps_counter_bind; [|intros ?]
    | apply keeps_counter_try; [|intros ?]
    | progress eauto with frame
    | match goal with
      | |- keeps_counter (if ?b then _ else _) => destruct b
      | |- keeps_counter (match ?x with _ => _ end) => destruct x
      end ].

Section Frame.

Variable cfg : config.

Lemma keeps_counter_assign phone uid d ip e :
  keeps_counter (set_on_call_number cfg phone uid d ip e).
Proof. unfold set_on_call_number. frame. Qed.

Lemma keeps_counter_authenticate e rq : keeps_counter (authenticate cfg e rq).
Proof.
  unfold authenticate.
  destruct (form_pin rq) as [[|c pin]|]; [frame| |frame].
  apply keeps_counter_bind; [by intros s|intros hashed].
  frame.
Qed.

End Frame.

(** ** The admission check *)

Lemma elem_of_recent now stamps t :
  t ∈ recent now stamps <-> (now - t < RATE_PERIOD)%Z /\ t ∈ stamps.
Proof. unfold recent. by rewrite list_elem_of_filter. Qed.

Lemma recent_fresh now stamps :
  Forall (fun t => (now - t < RATE_PERIOD)%Z) stamps -> recent now stamps = stamps.
Proof.
  unfold recent. induction 1 as [|t l Ht _ IH]; [done|].
  by rewrite filter_cons_True, IH.
Qed.

Lemma recent_same_length now stamps :
  length (recent now stamps) = length stamps -> recent now stamps = stamps.
Proof.
  unfold recent. induction stamps as [|t l IH]; [done|].
  rewrite filter_cons. destruct (decide _) as [Ht|Ht]; simpl; intros Hlen.
  - f_equal. apply IH. lia.
  - pose proof (length_filter (fun t => (now - t < RATE_PERIOD)%Z) l). lia.
Qed.

(** Appending [now] to what was kept never gives back the old record:
    [now] itself is always kept, so it occurs once more than before. *)
Lemma recent_snoc_neq now stamps : (recent now stamps ++ [now])%list <> stamps.
Proof.
  intros Heq.
  assert (Hc : filter (fun t => t = now) (recent now stamps) =
               filter (fun t => t = now) stamps).
  { unfold recent. rewrite list_filter_filter. apply list_filter_iff.
    intros t. unfold RATE_PERIOD. split; [tauto|]. intros ->. split; [done|lia]. }
  apply (f_equal (fun l => length (filter (fun t => t = now) l))) in Heq.
  rewrite filter_app, length_app, Hc, filter_cons_True in Heq by done.
  simpl in Heq. lia.
Qed.

Lemma set_counter_id s : set_counter (ip_request_counter s) s = s.
Proof. by destruct s. Qed.

(** The decorator, with the in-place dictionary updates merged. *)
Lemma rate_limited_unfold f now rq s :
  rate_limited f now rq s =
    let c := ip_request_counter s in
    let ip := remote_addr rq in
    let kept := recent now (default [] (c !! ip)) in
    if decide (RATE_LIMIT <= length kept)%nat
    then (Ok rate_limit_exceeded, set_counter (<[ip := kept]> c) s)
    else f rq (set_counter (<[ip := (kept ++ [now])%list]> c) s).
Proof.
  unfold rate_limited. cbn zeta.
  destruct (ip_request_counter s !! remote_addr rq) as [stamps|] eqn:E.
  - rewrite E, !lookup_insert_eq. cbn [default]. by rewrite !insert_insert_eq.
  - rewrite !lookup_insert_eq. cbn [default]. by rewrite !insert_insert_eq.
Qed.

Section Admission.

Variable cfg : config.

Lemma route_rejected now e rq s :
  (RATE_LIMIT <= length (recent now (default [] (ip_request_counter s !! remote_addr rq))))%nat ->
  authenticate_route cfg now e rq s =
    (Ok rate_limit_exceeded,
     set_counter (<[remote_addr rq :=
                      recent now (default [] (ip_request_counter s !! remote_addr rq))]>
                    (ip_request_counter s)) s).
Proof.
  intros Hfull. unfold authenticate_route. rewrite rate_limited_unfold. cbn zeta.
  by rewrite decide_True.
Qed.

Lemma route_accepted now e rq s :
  (length (recent now (default [] (ip_request_counter s !! remote_addr rq))) < RATE_LIMIT)%nat ->
  authenticate_route cfg now e rq s =
    authenticate cfg e rq
      (set_counter (<[remote_addr rq :=
                       (recent now (default [] (ip_request_counter s !! remote_addr rq))
                        ++ [now])%list]>
                      (ip_request_counter s)) s).
Proof.
  intros Hroom. unfold authenticate_route. rewrite rate_limited_unfold. cbn zeta.
  rewrite decide_False by lia. done.
Qed.

Lemma route_accepted_counter now e rq s :
  (length (recent now (default [] (ip_request_counter s !! remote_addr rq))) < RATE_LIMIT)%nat ->
  ip_request_counter (authenticate_route cfg now e rq s).2 =
    <[remote_addr rq :=
        (recent now (default [] (ip_request_counter s !! remote_addr rq)) ++ [now])%list]>
      (ip_request_counter s).
Proof.
  intros Hroom. rewrite route_accepted by done.
  by rewrite keeps_counter_authenticate.
Qed.

(** One more accepted request from [ip] whose window holds exactly [cur]. *)
Lemma route_records now e rq s ip cur :
  remote_addr rq = ip ->
  recent now (default [] (ip_request_counter s !! ip)) = cur ->
  (length cur < RATE_LIMIT)%nat ->
  default [] (ip_request_counter (authenticate_route cfg now e rq s).2 !! ip)
    = (cur ++ [now])%list.
Proof.
  intros <- <- Hroom. rewrite route_accepted_counter by done.
  by rewrite lookup_insert_eq.
Qed.

End Admission.

(** ** Running the handlers *)

(** Unfold the monad, the database calls and the statements, and nothing
    of the data they are applied to. *)
Ltac run :=
  cbv beta iota zeta delta
    [hash_pin
     try_except bind ret raise get_db_connection execute
     execute_fetchone commit close on_conn requests_post response_json
     fault_now insert_on_call insert_audit_log archive_on_call
     update_last_login set_conn set_seqs set_committed log_effect set_counter
     conn committed seqs effects ip_request_counter
     conn_env_of conn_tables conn_calls conn_fault current_timestamp
     on_call_conn telepo datetime_now users_conn assign
     remote_addr form_pin form_caller_id args_division
     users on_call audit_log Nat.eqb fst snd].

Ltac decided :=
  repeat first [rewrite decide_True by done | rewrite decide_False by done];
  run.

Lemma no_fault_before_None k e : conn_fault e = None -> no_fault_before k e.
Proof. unfold no_fault_before. by intros ->. Qed.

(** Split on which of the first six calls, if any, raises. *)
Ltac fault_cases f :=
  destruct f as [[[|[|[|[|[|[|?n]]]]]] ?msg]|];
  unfold no_fault_before in *; simpl in *; try lia.

Section Assign.

Variable cfg : config.

(** With a working database and an existing user, the call goes through
    all of its steps. *)
Lemma assign_faultless phone uid d ip e s :
  no_fault_before 6 (on_call_conn e) ->
  references_user (Some uid) (committed s) ->
  set_on_call_number cfg phone uid d ip e s =
    (telepo_result (telepo e),
     mk_state (ip_request_counter s)
       (assigned phone uid d ip (current_timestamp (on_call_conn e))
                 (seqs s) (committed s))
       (after_assign (seqs s)) None
       (effects s ++
        [EConnect; EExecute; EExecute; EExecute; ECommit; EClose;
         EHttpPost (telepo_request cfg phone uid d (datetime_now e))])).
Proof.
  destruct e as [[now fault] p dt], s as [c t sq cn fx]. simpl.
  intros Hnf Hfk. unfold set_on_call_number.
  fault_cases fault; run; decided; decided; rewrite <- !app_assoc; simpl;
    (destruct p as [code [data|err]|err|]; simpl; try done;
     by repeat case_decide).
Qed.

(** Whatever the database and the provider do, the committed rows are
    afterwards either the old ones, and then the caller gets an error
    dictionary, or the old ones with steps 1-3 applied. *)
Lemma assign_cases phone uid d ip e s :
  let r := set_on_call_number cfg phone uid d ip e s in
  (committed r.2 = committed s /\ exists msg, r.1 = Ok (error_dict msg))
  \/ committed r.2 =
       assigned phone uid d ip (current_timestamp (on_call_conn e))
                (seqs s) (committed s).
Proof.
  destruct e as [[now fault] p dt], s as [c t sq cn fx]. simpl.
  unfold set_on_call_number.
  destruct (decide (references_user (Some uid) t)) as [Hfk|Hfk];
    fault_cases fault; run; decided; decided; eauto;
    destruct p as [code [data|err]|err|]; run; repeat case_decide; eauto.
Qed.

(** A call among the first five (connect, the three statements, commit)
    that raises leaves the committed rows as they were; the exception is
    turned into an error dictionary. *)
Lemma assign_fault phone uid d ip e s n msg :
  conn_fault (on_call_conn e) = Some (n, msg) ->
  (n <= 4)%nat ->
  exists msg',
    (set_on_call_number cfg phone uid d ip e s).1 = Ok (error_dict msg') /\
    committed (set_on_call_number cfg phone uid d ip e s).2 = committed s.
Proof.
  destruct e as [[now fault] p dt], s as [c t sq cn fx]. simpl. intros -> Hn.
  destruct (decide (references_user (Some uid) t)) as [Hfk|Hfk];
    destruct n as [|[|[|[|[|n]]]]]; try lia;
    unfold set_on_call_number; run; decided; decided; eauto.
Qed.

End Assign.

(** ** The ledger *)

Lemma archive_closes d now (rows : list on_call_row) :
  filter (is_open_for d)
    ((fun o => if decide (is_open_for d o) then end_row now o else o) <$> rows)
  = [].
Proof.
  induction rows as [|o rows IH]; [done|]. rewrite fmap_cons.
  destruct (decide (is_open_for d o)) as [Ho|Ho].
  - rewrite filter_cons_False; [done|]. by intros [? _].
  - by rewrite filter_cons_False.
Qed.

Lemma archive_other d d' now (rows : list on_call_row) :
  d' <> d ->
  filter (is_open_for d')
    ((fun o => if decide (is_open_for d o) then end_row now o else o) <$> rows)
  = filter (is_open_for d') rows.
Proof.
  intros Hd. induction rows as [|o rows IH]; [done|]. rewrite fmap_cons.
  destruct (decide (is_open_for d o)) as [[He Ho]|Ho].
  - rewrite !filter_cons_False; [done| |].
    + intros [_ ?]. congruence.
    + intros [? _]. done.
  - rewrite !filter_cons, IH. done.
Qed.

(** After steps 1-3 the division has exactly one open row, the new one. *)
Lemma open_rows_assigned phone uid d ip now sq t :
  open_rows d (assigned phone uid d ip now sq t) =
    [mk_on_call (on_call_id_seq sq + 1) phone (Some uid) d (Some now) None].
Proof.
  unfold open_rows, assigned. simpl.
  rewrite filter_app, archive_closes. simpl.
  by rewrite filter_cons_True.
Qed.

(** The open rows of every other division are untouched. *)
Lemma open_rows_assigned_other phone uid d d' ip now sq t :
  d' <> d ->
  open_rows d' (assigned phone uid d ip now sq t) = open_rows d' t.
Proof.
  intros Hd. unfold open_rows, assigned. simpl.
  rewrite filter_app, archive_other by done.
  rewrite filter_cons_False; [by rewrite app_nil_r|].
  intros [_ ?]. simpl in *. congruence.
Qed.

Lemma assigned_invariant phone uid d ip now sq t :
  ledger_invariant t -> ledger_invariant (assigned phone uid d ip now sq t).
Proof.
  intros Ht d'. destruct (decide (d' = d)) as [->|Hd].
  - by rewrite open_rows_assigned.
  - rewrite open_rows_assigned_other by done. apply Ht.
Qed.

Lemma ledger_invariant_on_call t t' :
  on_call t' = on_call t -> ledger_invariant t -> ledger_invariant t'.
Proof. intros Heq Ht d. unfold open_rows. rewrite Heq. apply Ht. Qed.

Lemma bind_ret_state {A B} (m : M A) (f : A -> B) s :
  (bind m (fun a => ret (f a)) s).2 = (m s).2.
Proof. unfold bind, ret. by destruct (m s) as [[a|msg|] s1]. Qed.

Lemma select_user_elem hashed t u :
  select_user_by_pin hashed t = Some u -> u ∈ users t /\ u_pin u = hashed.
Proof.
  unfold select_user_by_pin. intros Hu. apply head_Some_elem_of in Hu.
  apply list_elem_of_filter in Hu. tauto.
Qed.

(** [UPDATE users SET last_login ...] changes no [id]. *)
Lemma touch_keeps_ids uid now (us : list user) :
  u_id <$> ((fun u => if decide (u_id u = uid)
                      then touch_last_login now u else u) <$> us)
  = u_id <$> us.
Proof.
  rewrite <- list_fmap_compose. apply list_fmap_ext.
  intros i u _. simpl. by destruct (decide _).
Qed.

Section Authenticate.

Variable cfg : config.

(** Every exception inside [set_on_call_number] is caught there. *)
Lemma assign_never_raises phone uid d ip e s msg :
  (set_on_call_number cfg phone uid d ip e s).1 <> Raise msg.
Proof.
  unfold set_on_call_number, try_except at 1.
  by destruct (bind _ _ s) as [[r|msg'|] s'].
Qed.

(** A known PIN and a working database: the first transaction commits and
    the call goes on to [set_on_call_number]. *)
Lemma authenticate_found e rq s pin u :
  form_pin rq = Some pin -> pin <> "" ->
  select_user_by_pin (salted_digest cfg pin) (committed s) = Some u ->
  no_fault_before 6 (users_conn e) ->
  authenticate cfg e rq s =
    bind (set_on_call_number cfg (u_phone u) (u_id u) (u_division u)
            (remote_addr rq) (assign e))
         (fun result =>
            ret (on_call_updated (u_phone u) (u_division u) result))
         (mk_state (ip_request_counter s)
            (logged_in u (default "unknown" (form_caller_id rq))
               (remote_addr rq) (current_timestamp (users_conn e))
               (seqs s) (committed s))
            (after_audit (seqs s)) None
            (effects s ++
             [EDigest; EConnect; EExecute; EExecute; EExecute; ECommit;
              EClose])).
Proof.
  destruct e as [[now fault] ae], s as [c t sq cn fx], rq as [ip p cid dv].
  simpl. intros -> Hpin Hu Hnf.
  destruct pin as [|a pin]; [done|].
  pose proof Hu as [Hin _]%select_user_elem.
  assert (Hfk : references_user (Some (u_id u))
                  (mk_tables
                     ((fun u' => if decide (u_id u' = u_id u)
                                 then touch_last_login now u' else u')
                        <$> users t)
                     (on_call t) (audit_log t))).
  { simpl. rewrite touch_keeps_ids. by apply list_elem_of_fmap_2. }
  unfold authenticate.
  fault_cases fault; run; rewrite Hu; run; rewrite (decide_True _ _ Hfk);
    run; rewrite <- !app_assoc; simpl; unfold logged_in, after_audit; run;
  match goal with
  | |- context [set_on_call_number ?c ?p ?i ?d ?a ?e ?s] =>
      pose proof (assign_never_raises p i d a e s) as Hnr;
      destruct (set_on_call_number c p i d a e s) as [[r|err|] s']
  end; first [done | by destruct (Hnr err)].
Qed.

(** An unknown PIN and a working database. *)
Lemma authenticate_not_found e rq s pin :
  form_pin rq = Some pin -> pin <> "" ->
  select_user_by_pin (salted_digest cfg pin) (committed s) = None ->
  no_fault_before 5 (users_conn e) ->
  authenticate cfg e rq s =
    (Ok invalid_pin,
     mk_state (ip_request_counter s)
       (auth_failed (default "unknown" (form_caller_id rq)) (remote_addr rq)
          (current_timestamp (users_conn e)) (seqs s) (committed s))
       (after_audit (seqs s)) None
       (effects s ++ [EDigest; EConnect; EExecute; EExecute; ECommit; EClose])).
Proof.
  destruct e as [[now fault] ae], s as [c t sq cn fx], rq as [ip p cid dv].
  simpl. intros -> Hpin Hu Hnf.
  destruct pin as [|a pin]; [done|].
  unfold authenticate.
  fault_cases fault; run; rewrite Hu; run; decided;
    rewrite <- !app_assoc; reflexivity.
Qed.

(** In every run the ledger rows are untouched up to the point where
    [set_on_call_number] is entered, if it is entered at all. *)
Lemma authenticate_on_call e rq s :
  on_call (committed (authenticate cfg e rq s).2) = on_call (committed s)
  \/ exists u s1,
       on_call (committed s1) = on_call (committed s) /\
       (authenticate cfg e rq s).2 =
         (set_on_call_number cfg (u_phone u) (u_id u) (u_division u)
            (remote_addr rq) (assign e) s1).2.
Proof.
  destruct (form_pin rq) as [[|a pin]|] eqn:Hpin;
    [left; unfold authenticate; by rewrite Hpin| |
     left; unfold authenticate; by rewrite Hpin].
  destruct (select_user_by_pin (salted_digest cfg (String a pin)) (committed s))
    as [u|] eqn:Hu.
  - destruct (conn_fault (users_conn e)) as [[n msg]|] eqn:Hf;
      [destruct (decide (6 <= n)%nat) as [Hn|Hn]|].
    2:{ left. destruct e as [[now fault] ae], s as [c t sq cn fx],
          rq as [ip p cid dv]. simpl in *. subst.
        unfold authenticate.
        destruct n as [|[|[|[|[|[|n]]]]]]; try lia; run; rewrite ?Hu; run;
          try done; case_decide; run; done. }
    all: right; eexists _, _;
      (split; [|erewrite authenticate_found;
                [apply bind_ret_state|done..|unfold no_fault_before;
                                               by rewrite Hf]]); done.
  - left. destruct (conn_fault (users_conn e)) as [[n msg]|] eqn:Hf;
      [destruct (decide (5 <= n)%nat) as [Hn|Hn]|].
    2:{ destruct e as [[now fault] ae], s as [c t sq cn fx],
          rq as [ip p cid dv]. simpl in *. subst.
        unfold authenticate.
        destruct n as [|[|[|[|[|n]]]]]; try lia; run; rewrite ?Hu; run;
          decided; done. }
    all: erewrite authenticate_not_found;
      [done|done..|unfold no_fault_before; by rewrite Hf].
Qed.

End Authenticate.

(** ** The query *)

Lemma query_committed e rq s :
  committed (get_current_oncall e rq s).2 = committed s.
Proof.
  destruct e as [now fault], s as [c t sq cn fx], rq as [ip p cid dv].
  unfold get_current_oncall.
  destruct fault as [[[|[|[|n]]] msg]|]; run; try done;
    by destruct (select_current_on_call _ _).
Qed.

Lemma query_faultless e rq s :
  no_fault_before 3 e ->
  (get_current_oncall e rq s).1 =
    Ok (match select_current_on_call
                (default "retic_water" (args_division rq)) (committed s) with
        | Some row => on_call_found row
        | None => no_on_call (default "retic_water" (args_division rq))
        end).
Proof.
  destruct e as [now fault], s as [c t sq cn fx], rq as [ip p cid dv].
  unfold get_current_oncall. intros Hnf.
  fault_cases fault; run; by destruct (select_current_on_call _ _).
Qed.

(** [LIMIT 1] of a non-empty result is one of its rows. *)
Lemma order_desc_limit_1_elem rows :
  rows <> [] -> exists r, order_desc_limit_1 rows = Some r /\ r ∈ rows.
Proof.
  unfold order_desc_limit_1.
  assert (Hgen : forall rows b,
            exists r,
              foldl (fun best r =>
                       match best with
                       | None => Some r
                       | Some b => if decide (sorts_before r b)
                                   then Some r else Some b
                       end) (Some b) rows = Some r /\ r ∈ b :: rows).
  { clear. induction rows as [|x rows IH]; intros b; simpl.
    - exists b. split; [done|]. apply list_elem_of_here.
    - destruct (decide (sorts_before x b)).
      + destruct (IH x) as (r & -> & Hr). exists r. split; [done|].
        by apply list_elem_of_further.
      + destruct (IH b) as (r & -> & Hr). exists r. split; [done|].
        apply elem_of_cons in Hr as [->|Hr];
          [apply list_elem_of_here|by do 2 apply list_elem_of_further]. }
  destruct rows as [|x rows]; [done|]. intros _. simpl. apply Hgen.
Qed.


(** * The claims *)

Lemma assigned_neq phone uid d ip now sq t :
  assigned phone uid d ip now sq t <> t.
Proof.
  intros Heq. apply (f_equal (fun t => length (on_call t))) in Heq.
  simpl in Heq. rewrite length_app, length_fmap in Heq. simpl in Heq. lia.
Qed.

Section Ledger.

Variable cfg : config.

(** Once the first five calls went through, steps 1-3 are committed, even
    if [close] raises afterwards. *)
Lemma assign_committed phone uid d ip e s :
  no_fault_before 5 (on_call_conn e) ->
  references_user (Some uid) (committed s) ->
  committed (set_on_call_number cfg phone uid d ip e s).2 =
    assigned phone uid d ip (current_timestamp (on_call_conn e))
             (seqs s) (committed s).
Proof.
  destruct e as [[now fault] p dt], s as [c t sq cn fx]. simpl.
  intros Hnf Hfk. unfold set_on_call_number.
  fault_cases fault; run; decided; decided; try done;
    destruct p as [code [data|err]|err|]; run; repeat case_decide; done.
Qed.

Lemma assign_invariant phone uid d ip e s :
  ledger_invariant (committed s) ->
  ledger_invariant (committed (set_on_call_number cfg phone uid d ip e s).2).
Proof.
  intros Hs. destruct (assign_cases cfg phone uid d ip e s) as [[-> _]| ->];
    [done|by apply assigned_invariant].
Qed.

Lemma authenticate_invariant e rq s :
  ledger_invariant (committed s) ->
  ledger_invariant (committed (authenticate cfg e rq s).2).
Proof.
  intros Hs. destruct (authenticate_on_call cfg e rq s)
    as [Heq|(u & s1 & Heq & ->)].
  - by eapply ledger_invariant_on_call.
  - apply assign_invariant. by eapply ledger_invariant_on_call.
Qed.

Lemma route_invariant now e rq s :
  ledger_invariant (committed s) ->
  ledger_invariant (committed (authenticate_route cfg now e rq s).2).
Proof.
  intros Hs. unfold authenticate_route. rewrite rate_limited_unfold.
  cbn zeta. destruct (decide _); [done|]. by apply authenticate_invariant.
Qed.

Lemma step_invariant s s' :
  step cfg s s' ->
  ledger_invariant (committed s) -> ledger_invariant (committed s').
Proof.
  destruct 1; intros Hs.
  - by apply route_invariant.
  - by apply assign_invariant.
  - by rewrite query_committed.
Qed.

(** C1.  From any state in which every division has at most one open row,
    every state reached by authentications, assignments and queries run
    one after the other has that property again; and an assignment that
    goes through leaves its division with exactly one open row, the new
    one, and the open rows of all other divisions as they were. *)
Theorem ledger_single_open_row :
  (forall s0 s,
     ledger_invariant (committed s0) -> rtc (step cfg) s0 s ->
     forall division, (length (open_rows division (committed s)) <= 1)%nat)
  /\
  (forall phone uid division ip e s,
     conn_fault (on_call_conn e) = None ->
     references_user (Some uid) (committed s) ->
     let s' := (set_on_call_number cfg phone uid division ip e s).2 in
     open_rows division (committed s') =
       [mk_on_call (on_call_id_seq (seqs s) + 1) phone (Some uid) division
                   (Some (current_timestamp (on_call_conn e))) None]
     /\ forall other, other <> division ->
          open_rows other (committed s') = open_rows other (committed s)).
Proof.
  split.
  - intros s0 s Hs0 Hreach. induction Hreach as [|s1 s2 s3 Hstep _ IH]; [done|].
    apply IH. by eapply step_invariant.
  - intros phone uid d ip e s Hnf Hfk s'. subst s'.
    rewrite assign_committed by (done || by apply no_fault_before_None).
    split; [apply open_rows_assigned|].
    intros other Hother. by apply open_rows_assigned_other.
Qed.

(** C2.  After [set_on_call_number] the committed rows are either the old
    rows with all three effects in (every open row of the division given
    the end time of the transaction, the new open row, the
    [on_call_update] audit entry) or exactly the old rows.  The second
    happens only when a database call up to the commit raised or the user
    row is missing, and then the caller gets an error dictionary; with a
    working database all three effects are in; and a database call up to
    the commit that raises leaves none of them. *)
Theorem assign_all_or_nothing phone uid division ip e s :
  let r := set_on_call_number cfg phone uid division ip e s in
  let now := current_timestamp (on_call_conn e) in
  let all_in :=
    mk_tables (users (committed s))
      (((fun o => if decide (oc_end_time o = None /\ oc_division o = division)
                  then mk_on_call (oc_id o) (oc_phone o) (oc_user_id o)
                                  (oc_division o) (oc_start_time o) (Some now)
                  else o)
          <$> on_call (committed s)) ++
       [mk_on_call (on_call_id_seq (seqs s) + 1) phone (Some uid) division
                   (Some now) None])
      (audit_log (committed s) ++
       [mk_audit (audit_log_id_seq (seqs s) + 1) "on_call_update" (Some uid)
                 (Some ("New on-call: " +:+ phone +:+ " (division="
                        +:+ division +:+ ")"))
                 (Some ip) (Some now)]) in
  (committed r.2 = all_in \/ committed r.2 = committed s)
  /\ (committed r.2 = committed s ->
      (exists msg, r.1 = Ok (JObj [("status", JStr "error");
                                   ("message", JStr msg)])) /\
      ~ (no_fault_before 5 (on_call_conn e) /\
         references_user (Some uid) (committed s)))
  /\ (conn_fault (on_call_conn e) = None ->
      references_user (Some uid) (committed s) ->
      committed r.2 = all_in)
  /\ (forall n msg,
        conn_fault (on_call_conn e) = Some (n, msg) -> (n <= 4)%nat ->
        committed r.2 = committed s /\
        exists msg', r.1 = Ok (JObj [("status", JStr "error");
                                     ("message", JStr msg')])).
Proof.
  intros r now all_in.
  change all_in with (assigned phone uid division ip
                        (current_timestamp (on_call_conn e)) (seqs s)
                        (committed s)).
  subst r. split; [|split; [|split]].
  - destruct (assign_cases cfg phone uid division ip e s) as [[-> _]| ->]; auto.
  - intros Hsame. split.
    + destruct (assign_cases cfg phone uid division ip e s) as [[_ ?]|Heq];
        [done|].
      rewrite Heq in Hsame. by apply assigned_neq in Hsame.
    + intros [Hnf Hfk]. rewrite assign_committed in Hsame by done.
      by apply assigned_neq in Hsame.
  - intros Hnf Hfk. apply assign_committed; [|done].
    by apply no_fault_before_None.
  - intros n msg Hfault Hn.
    destruct (assign_fault cfg phone uid division ip e s n msg Hfault Hn)
      as (msg' & Hres & Hsame).
    split; [exact Hsame|]. by exists msg'.
Qed.

End Ledger.

Section Assignment.

Variable cfg : config.


(** After an assignment for [d], the row that the query for [d] selects
    is the new one, with the name of a stored user of that id. *)
Lemma select_after_assign_row phone uid d ip now sq t :
  references_user (Some uid) t ->
  exists u,
    u ∈ users t /\ u_id u = uid /\
    select_current_on_call d (assigned phone uid d ip now sq t)
      = Some (mk_view phone (Some now) (u_name u) uid d).
Proof.
  simpl. intros (u & Huid & Hu)%list_elem_of_fmap.
  unfold select_current_on_call.
  change (filter (is_open_for d) (on_call (assigned phone uid d ip now sq t)))
    with (open_rows d (assigned phone uid d ip now sq t)).
  rewrite open_rows_assigned, bind_singleton. simpl.
  match goal with |- context [order_desc_limit_1 ?l] => set (rows := l) end.
  assert (Hrows : forall r, r ∈ rows ->
            exists u', u' ∈ users t /\ u_id u' = uid /\
                       r = mk_view phone (Some now) (u_name u') uid d).
  { intros r (u' & Hr & Hu')%list_elem_of_bind.
    apply list_elem_of_singleton in Hr as ->.
    apply list_elem_of_filter in Hu' as [Heq Hin]. simpl in Heq.
    exists u'. split; [done|]. split; [congruence|].
    f_equal. congruence. }
  destruct (order_desc_limit_1_elem rows) as (r & Hr & Hin).
  - intros Hnil.
    assert (Hin : mk_view phone (Some now) (u_name u) (u_id u) d ∈ rows).
    { apply list_elem_of_bind. exists u. split; [apply list_elem_of_here|].
      apply list_elem_of_filter. split; [by rewrite Huid|done]. }
    rewrite Hnil in Hin. by apply not_elem_of_nil in Hin.
  - destruct (Hrows r Hin) as (u' & ? & ? & ->). by exists u'.
Qed.

(** C4.  When the database part of [set_on_call_number] goes through, the
    provider's behaviour decides the returned value and nothing else: the
    committed rows are the assigned ones for every provider, the request
    to the provider is sent after the commit, and a query for the division
    then answers 200 with the new assignment: the number, the start time
    of the transaction, the user and the division just assigned. *)
Theorem gateway_never_undoes_assignment phone uid division ip e s :
  conn_fault (on_call_conn e) = None ->
  references_user (Some uid) (committed s) ->
  let r := set_on_call_number cfg phone uid division ip e s in
  let now := current_timestamp (on_call_conn e) in
  committed r.2 =
    mk_tables (users (committed s))
      (((fun o => if decide (oc_end_time o = None /\ oc_division o = division)
                  then mk_on_call (oc_id o) (oc_phone o) (oc_user_id o)
                                  (oc_division o) (oc_start_time o) (Some now)
                  else o)
          <$> on_call (committed s)) ++
       [mk_on_call (on_call_id_seq (seqs s) + 1) phone (Some uid) division
                   (Some now) None])
      (audit_log (committed s) ++
       [mk_audit (audit_log_id_seq (seqs s) + 1) "on_call_update" (Some uid)
                 (Some ("New on-call: " +:+ phone +:+ " (division="
                        +:+ division +:+ ")"))
                 (Some ip) (Some now)])
  /\ effects r.2 =
       (effects s ++
        [EConnect; EExecute; EExecute; EExecute; ECommit; EClose;
         EHttpPost
           (mk_http_request (TELEPO_API_URL cfg)
              (JObj [("phone_number", JStr phone);
                     ("division", JStr division);
                     ("updated_at", JTime (datetime_now e));
                     ("user_id", JInt uid)])
              [("Authorization", "Bearer " +:+ TELEPO_API_KEY cfg)]
              None)])%list
  /\ r.1 =
       match telepo e with
       | Responds code (inl data) =>
           if decide (code = 200%Z)
           then Ok (JObj [("status", JStr "success"); ("data", data)])
           else Ok (JObj [("status", JStr "error");
                          ("message", JStr "API update failed")])
       | Responds _ (inr err) =>
           Ok (JObj [("status", JStr "error"); ("message", JStr err)])
       | Fails err =>
           Ok (JObj [("status", JStr "error"); ("message", JStr err)])
       | Stalls => Hang
       end
  /\ forall qe rq,
       conn_fault qe = None -> args_division rq = Some division ->
       exists u,
         u ∈ users (committed s) /\ u_id u = uid /\
         (get_current_oncall qe rq r.2).1 =
           Ok (mk_response 200
                 (JObj [("status", JStr "success");
                        ("on_call",
                         JObj [("phone", JStr phone);
                               ("start_time", JTime now);
                               ("name", match u_name u with
                                        | Some name => JStr name
                                        | None => JNull
                                        end);
                               ("user_id", JInt uid);
                               ("division", JStr division)])])).
Proof.
  intros Hnf Hfk r now. subst r now.
  rewrite assign_faultless by (done || by apply no_fault_before_None).
  split; [done|]. split; [done|]. split; [done|].
  intros qe rq Hq Hdiv.
  destruct (select_after_assign_row phone uid division ip
              (current_timestamp (on_call_conn e)) (seqs s) (committed s) Hfk)
    as (u & Hin & Hid & Hrow).
  exists u. split; [done|]. split; [done|].
  rewrite query_faultless by by apply no_fault_before_None.
  simpl. rewrite Hdiv. simpl. by rewrite Hrow.
Qed.

(** A ledger transaction that fails inside [set_on_call_number] does not
    fail [authenticate]: the answer is the ordinary success response, with
    the database error under [telepo_result], and the ledger is as before. *)
Lemma authenticate_hides_ledger_failure e rq s pin u n msg :
  form_pin rq = Some pin -> pin <> "" ->
  select_user_by_pin (salted_digest cfg pin) (committed s) = Some u ->
  conn_fault (users_conn e) = None ->
  conn_fault (on_call_conn (assign e)) = Some (n, msg) -> (n <= 4)%nat ->
  exists msg',
    (authenticate cfg e rq s).1 =
      Ok (on_call_updated (u_phone u) (u_division u) (error_dict msg')) /\
    on_call (committed (authenticate cfg e rq s).2) = on_call (committed s).
Proof.
  intros Hpin Hne Hu Hnf Hfault Hn.
  rewrite (authenticate_found cfg e rq s pin u)
    by (done || by apply no_fault_before_None).
  match goal with
  | |- context [bind (set_on_call_number cfg ?p ?i ?d ?a ?ae) _ ?s1] =>
      destruct (assign_fault cfg p i d a ae s1 n msg Hfault Hn)
        as (msg' & Hres & Hcomm);
      exists msg'; unfold bind, ret;
      destruct (set_on_call_number cfg p i d a ae s1) as [res s2]
  end.
  simpl in *. subst res. simpl. by rewrite Hcomm.
Qed.


End Assignment.

Lemma serve_cons_state cfg now e rq reqs s :
  (serve cfg ((now, e, rq) :: reqs) s).2 =
    (serve cfg reqs (authenticate_route cfg now e rq s).2).2.
Proof. reflexivity. Qed.

Lemma serve_nil_state cfg s : (serve cfg [] s).2 = s.
Proof. reflexivity. Qed.

(** Close the side conditions of an accepted request: every recorded
    timestamp is inside the window and the record is not full. *)
Ltac in_window :=
  lazymatch goal with
  | |- Forall _ _ => repeat constructor; unfold RATE_PERIOD; lia
  | |- _ => unfold RATE_LIMIT; simpl; lia
  end.

Section Authentication.

Variable cfg : config.

(** An unknown PIN touches neither [users] nor [on_call], whatever the
    database does; the audit log is as before or one [failed_auth] entry
    longer. *)
Lemma authenticate_unknown_rows e rq s pin :
  form_pin rq = Some pin -> pin <> "" ->
  select_user_by_pin (salted_digest cfg pin) (committed s) = None ->
  let t' := committed (authenticate cfg e rq s).2 in
  users t' = users (committed s) /\ on_call t' = on_call (committed s).
Proof.
  intros Hpin Hne Hu.
  destruct (conn_fault (users_conn e)) as [[n msg]|] eqn:Hf;
    [destruct (decide (5 <= n)%nat) as [Hn|Hn]|].
  2:{ destruct e as [[now fault] ae], s as [c t sq cn fx],
        rq as [ip p cid dv]. simpl in *. subst.
      destruct pin as [|a pin]; [done|]. unfold authenticate.
      destruct n as [|[|[|[|[|n]]]]]; try lia; run; rewrite ?Hu; run;
        decided; done. }
  all: simpl; erewrite authenticate_not_found;
    [done|done..|unfold no_fault_before; by rewrite Hf].
Qed.

(** C7.  A missing or empty PIN is answered with status 400 and the state
    is returned exactly as it was: no digest computed, no database call
    made, no row written.  The answer differs from the one for a rejected
    PIN (status 403).  Behind the decorator the same holds, the recorded
    timestamp of the accepted request aside. *)
Theorem missing_pin_is_client_error e rq s :
  form_pin rq = None \/ form_pin rq = Some "" ->
  authenticate cfg e rq s = (Ok pin_required, s)
  /\ status_code pin_required = 400%Z
  /\ status_code invalid_pin = 403%Z
  /\ pin_required <> invalid_pin
  /\ forall now,
       let kept :=
         recent now (default [] (ip_request_counter s !! remote_addr rq)) in
       (length kept < RATE_LIMIT)%nat ->
       authenticate_route cfg now e rq s =
         (Ok pin_required,
          mk_state (<[remote_addr rq := (kept ++ [now])%list]>
                      (ip_request_counter s))
                   (committed s) (seqs s) (conn s) (effects s)).
Proof.
  intros Hpin.
  assert (Hbody : forall s', authenticate cfg e rq s' = (Ok pin_required, s')).
  { intros s'. unfold authenticate. by destruct Hpin as [-> | ->]. }
  repeat split; try done.
  intros now kept Hroom. subst kept.
  rewrite route_accepted by done. by rewrite Hbody.
Qed.

(** C8.  A PIN whose digest matches no stored user never changes the
    ledger; and when the database works, the answer is the one fixed
    rejection, status 403 with the message [Invalid PIN], whatever the
    PIN and the stored users are, and the audit log grows by exactly one
    [failed_auth] entry. *)
Theorem unknown_pin_rejected e rq s pin :
  form_pin rq = Some pin -> pin <> "" ->
  select_user_by_pin (salted_digest cfg pin) (committed s) = None ->
  let r := authenticate cfg e rq s in
  on_call (committed r.2) = on_call (committed s)
  /\ users (committed r.2) = users (committed s)
  /\ (conn_fault (users_conn e) = None ->
      r.1 = Ok (mk_response 403
                  (JObj [("status", JStr "failure");
                         ("message", JStr "Invalid PIN")])) /\
      audit_log (committed r.2) =
        (audit_log (committed s) ++
         [mk_audit (audit_log_id_seq (seqs s) + 1) "failed_auth" None
            (Some ("Caller ID: " +:+ default "unknown" (form_caller_id rq)))
            (Some (remote_addr rq))
            (Some (current_timestamp (users_conn e)))])%list).
Proof.
  intros Hpin Hne Hu r. subst r.
  destruct (authenticate_unknown_rows e rq s pin Hpin Hne Hu) as [Husr Hoc].
  split; [done|split; [done|]].
  intros Hnf. by erewrite authenticate_not_found
    by (done || by apply no_fault_before_None).
Qed.

(** C6.  The admission check keeps exactly the recorded timestamps [t]
    with [now - t < 60], so every entry older than [now - 60] is dropped;
    with five or more kept the request is answered 429, the handler is not
    run and [now] is not recorded; otherwise [now] is appended and the
    handler runs.  Hence of six requests from one address within a window
    that started empty, the first five are recorded and the sixth is
    rejected, leaving the state as it was. *)
Theorem admission_check :
  (forall (f : request -> M response) now rq s,
     let c := ip_request_counter s in
     let ip := remote_addr rq in
     let stamps := default [] (c !! ip) in
     let kept := recent now stamps in
     (forall t, t ∈ kept <-> (now - t < 60)%Z /\ t ∈ stamps)
     /\ (forall t, (t < now - 60)%Z -> t ∉ kept)
     /\ ((5 <= length kept)%nat ->
         rate_limited f now rq s =
           (Ok rate_limit_exceeded,
            mk_state (<[ip := kept]> c) (committed s) (seqs s) (conn s)
                     (effects s)))
     /\ ((length kept < 5)%nat ->
         rate_limited f now rq s =
           f rq (mk_state (<[ip := (kept ++ [now])%list]> c) (committed s)
                          (seqs s) (conn s) (effects s))))
  /\
  (forall ip t1 t2 t3 t4 t5 t6 e1 e2 e3 e4 e5 e6 r1 r2 r3 r4 r5 r6 s,
     Forall (fun rq => remote_addr rq = ip) [r1; r2; r3; r4; r5; r6] ->
     recent t1 (default [] (ip_request_counter s !! ip)) = [] ->
     (t1 <= t2 <= t3)%Z -> (t3 <= t4 <= t5)%Z -> (t5 <= t6 < t1 + 60)%Z ->
     let s5 :=
       (serve cfg [(t1, e1, r1); (t2, e2, r2); (t3, e3, r3); (t4, e4, r4);
                   (t5, e5, r5)] s).2 in
     ip_request_counter s5 !! ip = Some [t1; t2; t3; t4; t5]
     /\ authenticate_route cfg t6 e6 r6 s5 = (Ok rate_limit_exceeded, s5)
     /\ status_code rate_limit_exceeded = 429%Z).
Proof.
  split.
  - intros f now rq s c ip stamps kept. subst kept stamps ip c.
    split; [intros t; apply elem_of_recent|].
    split.
    { intros t Hold [Hin _]%elem_of_recent. unfold RATE_PERIOD in Hin. lia. }
    rewrite rate_limited_unfold. cbn zeta. unfold RATE_LIMIT.
    split; intros Hlen; [by rewrite decide_True|by rewrite decide_False by lia].
  - intros ip t1 t2 t3 t4 t5 t6 e1 e2 e3 e4 e5 e6 r1 r2 r3 r4 r5 r6 s
      Hip Hfresh H13 H35 H56 s5.
    repeat match goal with
           | H : Forall _ (_ :: _) |- _ => apply Forall_cons in H as [? H]
           end.
    assert (Hstep : forall now e rq s0 cur,
              remote_addr rq = ip ->
              ip_request_counter s0 !! ip = Some cur ->
              Forall (fun t => (now - t < RATE_PERIOD)%Z) cur ->
              (length cur < RATE_LIMIT)%nat ->
              ip_request_counter (authenticate_route cfg now e rq s0).2 !! ip
                = Some (cur ++ [now])%list).
    { intros now e rq s0 cur <- Hcur Hall Hlen.
      rewrite route_accepted_counter; rewrite Hcur; cbn [default];
        rewrite recent_fresh by done; [by rewrite lookup_insert_eq|done]. }
    subst s5. rewrite !serve_cons_state, serve_nil_state.
    set (s1 := (authenticate_route cfg t1 e1 r1 s).2).
    set (s2 := (authenticate_route cfg t2 e2 r2 s1).2).
    set (s3 := (authenticate_route cfg t3 e3 r3 s2).2).
    set (s4 := (authenticate_route cfg t4 e4 r4 s3).2).
    set (s5 := (authenticate_route cfg t5 e5 r5 s4).2).
    assert (Hc1 : ip_request_counter s1 !! ip = Some [t1]).
    { subst s1 ip. rewrite route_accepted_counter; rewrite Hfresh;
        [by rewrite lookup_insert_eq|unfold RATE_LIMIT; simpl; lia]. }
    assert (Hc2 : ip_request_counter s2 !! ip = Some [t1; t2]).
    { apply (Hstep t2 e2 r2 s1 [t1]); try done; in_window. }
    assert (Hc3 : ip_request_counter s3 !! ip = Some [t1; t2; t3]).
    { apply (Hstep t3 e3 r3 s2 [t1; t2]); try done; in_window. }
    assert (Hc4 : ip_request_counter s4 !! ip = Some [t1; t2; t3; t4]).
    { apply (Hstep t4 e4 r4 s3 [t1; t2; t3]); try done; in_window. }
    assert (Hc5 : ip_request_counter s5 !! ip = Some [t1; t2; t3; t4; t5]).
    { apply (Hstep t5 e5 r5 s4 [t1; t2; t3; t4]); try done; in_window. }
    split; [done|]. split; [|done].
    assert (Hkept : recent t6 (default [] (ip_request_counter s5 !! remote_addr r6))
                    = [t1; t2; t3; t4; t5]).
    { replace (remote_addr r6) with ip. rewrite Hc5. cbn [default].
      apply recent_fresh. in_window. }
    rewrite route_rejected; rewrite Hkept; [|unfold RATE_LIMIT; simpl; lia].
    replace (remote_addr r6) with ip.
    by rewrite insert_id, set_counter_id.
Qed.

(** C10.  An accepted request to [/authenticate] has its timestamp
    appended to the record of its address whatever the handler then does:
    in particular when the PIN is missing (answer 400) and when no user
    matches (answer 403).  A rejected request is answered 429 and, the
    records being bounded by the limit, leaves the whole dictionary as it
    was.  The bound is kept by every request. *)
Theorem slot_consumed_before_handler now e rq s :
  let c := ip_request_counter s in
  let ip := remote_addr rq in
  let kept := recent now (default [] (c !! ip)) in
  let r := authenticate_route cfg now e rq s in
  ((length kept < RATE_LIMIT)%nat ->
     ip_request_counter r.2 = <[ip := (kept ++ [now])%list]> c
     /\ ip_request_counter r.2 <> c
     /\ (form_pin rq = None \/ form_pin rq = Some "" -> r.1 = Ok pin_required)
     /\ (forall pin,
           form_pin rq = Some pin -> pin <> "" ->
           select_user_by_pin (salted_digest cfg pin) (committed s) = None ->
           conn_fault (users_conn e) = None ->
           r.1 = Ok invalid_pin))
  /\ ((RATE_LIMIT <= length kept)%nat -> counter_bounded c ->
      r.1 = Ok rate_limit_exceeded /\ ip_request_counter r.2 = c)
  /\ (counter_bounded c -> counter_bounded (ip_request_counter r.2)).
Proof.
  intros c ip kept r. subst r kept ip c. split; [|split].
  - intros Hroom. rewrite route_accepted_counter by done.
    split; [done|]. split.
    { intros Heq. apply (f_equal (fun m => m !! remote_addr rq)) in Heq.
      rewrite lookup_insert_eq in Heq.
      destruct (ip_request_counter s !! remote_addr rq) as [stamps|] eqn:E;
        [|done].
      simpl in Heq. injection Heq as Heq. by apply recent_snoc_neq in Heq. }
    rewrite route_accepted by done. split.
    + intros Hpin. unfold authenticate. by destruct Hpin as [-> | ->].
    + intros pin Hpin Hne Hu Hnf.
      by erewrite authenticate_not_found
        by (done || by apply no_fault_before_None).
  - intros Hfull Hbound. rewrite route_rejected by done. split; [done|].
    simpl. destruct (ip_request_counter s !! remote_addr rq) as [stamps|] eqn:E.
    + simpl in *. rewrite recent_same_length; [by apply insert_id|].
      pose proof (Hbound _ _ E).
      pose proof (length_filter (fun t => (now - t < RATE_PERIOD)%Z) stamps).
      unfold recent in *. lia.
    + simpl in Hfull. unfold RATE_LIMIT in Hfull. lia.
  - intros Hbound ip stamps. unfold authenticate_route.
    rewrite rate_limited_unfold. cbn zeta.
    destruct (decide _) as [Hfull|Hroom].
    + simpl. destruct (decide (ip = remote_addr rq)) as [->|Hne].
      * rewrite lookup_insert_eq. intros [= <-]. unfold recent.
        destruct (ip_request_counter s !! remote_addr rq) as [old|] eqn:E;
          simpl; [|unfold RATE_LIMIT; lia].
        pose proof (Hbound _ _ E).
        pose proof (length_filter (fun t => (now - t < RATE_PERIOD)%Z) old).
        lia.
      * rewrite lookup_insert_ne by done. apply Hbound.
    + rewrite keeps_counter_authenticate. simpl.
      destruct (decide (ip = remote_addr rq)) as [->|Hne].
      * rewrite lookup_insert_eq. intros [= <-]. rewrite length_app. simpl. lia.
      * rewrite lookup_insert_ne by done. apply Hbound.
Qed.

End Authentication.

(** * The claims on the seeded installation *)

(** C3.  The admin authenticates with the right PIN while the database
    cannot be reached from [set_on_call_number]: the answer is status 200
    with ["status": "success"] and the message that the on-call number was
    updated, the database error sits under [telepo_result], and the ledger
    has no row. *)
Theorem ledger_failure_reported_as_success :
  let e := mk_auth_env (working 100)
             (mk_assign_env (unreachable 101) accepting 102) in
  let r := authenticate_route demo_cfg 99 e (call "10.0.0.1" (Some "1234"))
             seeded in
  r.1 = Ok (mk_response 200
              (JObj [("status", JStr "success");
                     ("message",
                      JStr "On-call number updated to +15551234567 (division: retic_water)");
                     ("telepo_result",
                      error_dict "could not connect to server")]))
  /\ on_call (committed r.2) = [].
Proof. by vm_compute. Qed.

(** C9.  The request to the provider carries no timeout, and with a
    provider that never answers the authentication never returns, although
    the assignment is already committed. *)
Theorem stalled_provider_holds_request :
  (forall cfg phone uid division updated_at,
     timeout (telepo_request cfg phone uid division updated_at) = None)
  /\
  let e := mk_auth_env (working 100) (mk_assign_env (working 101) Stalls 102) in
  let r := authenticate_route demo_cfg 99 e (call "10.0.0.1" (Some "1234"))
             seeded in
  r.1 = Hang /\
  oc_phone <$> open_rows "retic_water" (committed r.2) = ["+15551234567"].
Proof. split; [done|]. by vm_compute. Qed.


(** ** Instances *)

Lemma ledger_single_open_row_witness :
  ledger_invariant (committed seeded) /\
  (length (open_rows "retic_water"
             (committed
                (authenticate_route demo_cfg 99 smooth
                   (call "10.0.0.1" (Some "1234")) seeded).2)) <= 1)%nat.
Proof.
  assert (Hseed : ledger_invariant (committed seeded)).
  { intros d. simpl. lia. }
  split; [exact Hseed|].
  apply (proj1 (ledger_single_open_row demo_cfg) seeded); [exact Hseed|].
  apply rtc_once, step_authenticate.
Defined.

Lemma assign_all_or_nothing_witness :
  conn_fault (working 101) = None /\
  references_user (Some 2%Z) (committed in_service) /\
  committed
    (set_on_call_number demo_cfg "+15559876543" 2 "retic_water" "10.0.0.7"
       (mk_assign_env (working 101) accepting 102) in_service).2
  = mk_tables [admin_user; support_lead]
      [mk_on_call 1 "+15550000000" (Some 1%Z) "retic_water"
                  (Some 10%Z) (Some 30%Z);
       mk_on_call 2 "+15559876543" (Some 2%Z) "surface_water"
                  (Some 20%Z) None;
       mk_on_call 3 "+15551234567" (Some 1%Z) "retic_water"
                  (Some 30%Z) (Some 101%Z);
       mk_on_call 4 "+15559876543" (Some 2%Z) "retic_water"
                  (Some 101%Z) None]
      [mk_audit 1 "successful_auth" (Some 1%Z) (Some "Caller ID: unknown")
                (Some "10.0.0.1") (Some 29%Z);
       mk_audit 2 "on_call_update" (Some 1%Z)
                (Some "New on-call: +15551234567 (division=retic_water)")
                (Some "10.0.0.1") (Some 30%Z);
       mk_audit 3 "on_call_update" (Some 2%Z)
                (Some "New on-call: +15559876543 (division=retic_water)")
                (Some "10.0.0.7") (Some 101%Z)]
  /\ (committed
        (set_on_call_number demo_cfg "+15559876543" 2 "retic_water" "10.0.0.7"
           (mk_assign_env (audit_insert_fails 101) accepting 102)
           in_service).2
      = committed in_service
      /\ exists msg,
           (set_on_call_number demo_cfg "+15559876543" 2 "retic_water"
              "10.0.0.7" (mk_assign_env (audit_insert_fails 101) accepting 102)
              in_service).1
           = Ok (JObj [("status", JStr "error"); ("message", JStr msg)])).
Proof.
  assert (Hfk : references_user (Some 2%Z) (committed in_service))
    by apply list_elem_of_further, list_elem_of_here.
  split; [reflexivity|]. split; [exact Hfk|]. split.
  - destruct (assign_all_or_nothing demo_cfg "+15559876543" 2 "retic_water"
                "10.0.0.7" (mk_assign_env (working 101) accepting 102)
                in_service) as (_ & _ & Hall & _).
    rewrite (Hall eq_refl Hfk). reflexivity.
  - destruct (assign_all_or_nothing demo_cfg "+15559876543" 2 "retic_water"
                "10.0.0.7"
                (mk_assign_env (audit_insert_fails 101) accepting 102)
                in_service) as (_ & _ & _ & Hfail).
    apply (Hfail 3%nat "could not extend file: disk full" eq_refl).
    do 1 apply le_S. apply le_n.
Defined.

Lemma gateway_never_undoes_assignment_witness :
  conn_fault (working 101) = None /\
  references_user (Some 2%Z) (committed in_service) /\
  (set_on_call_number demo_cfg "+15559876543" 2 "retic_water" "10.0.0.7"
     (mk_assign_env (working 101) (Fails "timed out") 102) in_service).1
  = Ok (JObj [("status", JStr "error"); ("message", JStr "timed out")])
  /\ (get_current_oncall (working 200) (ask "retic_water")
        (set_on_call_number demo_cfg "+15559876543" 2 "retic_water" "10.0.0.7"
           (mk_assign_env (working 101) (Fails "timed out") 102)
           in_service).2).1
     = Ok (mk_response 200
             (JObj [("status", JStr "success");
                    ("on_call",
                     JObj [("phone", JStr "+15559876543");
                           ("start_time", JTime 101);
                           ("name", JStr "Support Team Lead");
                           ("user_id", JInt 2);
                           ("division", JStr "retic_water")])])).
Proof.
  assert (Hfk : references_user (Some 2%Z) (committed in_service))
    by apply list_elem_of_further, list_elem_of_here.
  split; [reflexivity|]. split; [exact Hfk|].
  destruct (gateway_never_undoes_assignment demo_cfg "+15559876543" 2
              "retic_water" "10.0.0.7"
              (mk_assign_env (working 101) (Fails "timed out") 102) in_service
              eq_refl Hfk) as (_ & _ & Hres & Hquery).
  split; [exact Hres|].
  destruct (Hquery (working 200) (ask "retic_water") eq_refl eq_refl)
    as (u & Hin & Hid & Hrow).
  rewrite Hrow.
  apply elem_of_cons in Hin as [->|Hin]; [discriminate Hid|].
  apply elem_of_cons in Hin as [->|Hin]; [reflexivity|].
  by apply not_elem_of_nil in Hin.
Defined.


Lemma admission_check_witness :
  let five := [(1, smooth, call "10.0.0.1" (Some "0000"));
               (2, smooth, call "10.0.0.1" (Some "0000"));
               (3, smooth, call "10.0.0.1" None);
               (4, smooth, call "10.0.0.1" (Some "1234"));
               (5, smooth, call "10.0.0.1" (Some "0000"))]%Z in
  authenticate_route demo_cfg 59 smooth (call "10.0.0.1" (Some "1234"))
    (serve demo_cfg five seeded).2
  = (Ok rate_limit_exceeded, (serve demo_cfg five seeded).2).
Proof.
  apply (proj2 (admission_check demo_cfg) "10.0.0.1" 1 2 3 4 5 59)%Z;
    [repeat constructor | reflexivity | lia | lia | lia].
Defined.

Lemma missing_pin_is_client_error_witness :
  form_pin (call "10.0.0.1" (Some "")) = Some "" /\
  authenticate demo_cfg smooth (call "10.0.0.1" (Some "")) seeded
  = (Ok pin_required, seeded).
Proof.
  split; [reflexivity|].
  apply (missing_pin_is_client_error demo_cfg smooth
           (call "10.0.0.1" (Some "")) seeded).
  right. reflexivity.
Defined.

Lemma unknown_pin_rejected_witness :
  select_user_by_pin (salted_digest demo_cfg "0000") (committed in_service)
    = None
  /\ on_call (committed
        (authenticate demo_cfg smooth (call "10.0.0.8" (Some "0000"))
           in_service).2) = on_call (committed in_service)
  /\ (authenticate demo_cfg smooth (call "10.0.0.8" (Some "0000"))
        in_service).1
     = Ok (mk_response 403
             (JObj [("status", JStr "failure");
                    ("message", JStr "Invalid PIN")]))
  /\ audit_log (committed
        (authenticate demo_cfg smooth (call "10.0.0.8" (Some "0000"))
           in_service).2)
     = [mk_audit 1 "successful_auth" (Some 1%Z) (Some "Caller ID: unknown")
                 (Some "10.0.0.1") (Some 29%Z);
        mk_audit 2 "on_call_update" (Some 1%Z)
                 (Some "New on-call: +15551234567 (division=retic_water)")
                 (Some "10.0.0.1") (Some 30%Z);
        mk_audit 3 "failed_auth" None (Some "Caller ID: unknown")
                 (Some "10.0.0.8") (Some 100%Z)].
Proof.
  assert (Hu : select_user_by_pin (salted_digest demo_cfg "0000")
                 (committed in_service) = None) by (vm_compute; reflexivity).
  split; [exact Hu|].
  destruct (unknown_pin_rejected demo_cfg smooth
              (call "10.0.0.8" (Some "0000")) in_service "0000" eq_refl
              ltac:(discriminate) Hu) as (Hoc & _ & Hok).
  destruct (Hok eq_refl) as [Hres Hlog].
  split; [exact Hoc|]. split; [exact Hres|].
  rewrite Hlog. reflexivity.
Defined.

Lemma slot_consumed_before_handler_witness :
  (length (recent 7 (default [] (ip_request_counter seeded !! "10.0.0.1")))
     < RATE_LIMIT)%nat /\
  ip_request_counter
    (authenticate_route demo_cfg 7 smooth (call "10.0.0.1" None) seeded).2
    !! "10.0.0.1" = Some [7%Z].
Proof.
  assert (Hroom : (length (recent 7 (default []
                     (ip_request_counter seeded !! "10.0.0.1")))
                   < RATE_LIMIT)%nat) by (vm_compute; lia).
  split; [exact Hroom|].
  destruct (slot_consumed_before_handler demo_cfg 7 smooth
              (call "10.0.0.1" None) seeded) as (Hacc & _ & _).
  destruct (Hacc Hroom) as (Hrec & _).
  rewrite Hrec. reflexivity.
Defined.

(** * Further properties of the authentication path *)

Section Handover.

Variable cfg : config.

(** X1.  Two assignments for one division, one after the other with a
    working database: the ledger ends with the first row, closed at the
    very timestamp at which the second starts, and the second row, which
    is the only open row of the division; the rows before them are as many
    as before. *)
Theorem hand_over p1 u1 ip1 e1 p2 u2 ip2 e2 division s :
  conn_fault (on_call_conn e1) = None ->
  conn_fault (on_call_conn e2) = None ->
  references_user (Some u1) (committed s) ->
  references_user (Some u2) (committed s) ->
  let t1 := current_timestamp (on_call_conn e1) in
  let t2 := current_timestamp (on_call_conn e2) in
  let s1 := (set_on_call_number cfg p1 u1 division ip1 e1 s).2 in
  let s2 := (set_on_call_number cfg p2 u2 division ip2 e2 s1).2 in
  let second :=
    mk_on_call (on_call_id_seq (seqs s) + 1 + 1) p2 (Some u2) division
               (Some t2) None in
  (exists before,
     on_call (committed s2) =
       (before ++
        [mk_on_call (on_call_id_seq (seqs s) + 1) p1 (Some u1) division
                    (Some t1) (Some t2);
         second])%list
     /\ length before = length (on_call (committed s)))
  /\ open_rows division (committed s2) = [second].
Proof.
  intros Hf1 Hf2 Hu1 Hu2 t1 t2 s1 s2 second. subst s2 s1 second t2 t1.
  rewrite (assign_faultless cfg p1) by (done || by apply no_fault_before_None).
  rewrite (assign_faultless cfg p2) by (done || by apply no_fault_before_None).
  cbn [snd committed seqs after_assign on_call_id_seq].
  split; [|apply open_rows_assigned].
  eexists. split.
  - unfold assigned. cbn [on_call].
    rewrite fmap_app. cbn [fmap list_fmap].
    rewrite decide_True by done. rewrite <- app_assoc. reflexivity.
  - by rewrite !length_fmap.
Qed.

End Handover.

Section MoreAdmission.

Variable cfg : config.

(** X2.  The record of an address is only written by requests from that
    address: after any number of requests from other addresses it is what
    it was, so their traffic never uses up its attempts. *)
Theorem rate_limit_is_per_address reqs ip s :
  Forall (fun q : Z * auth_env * request => remote_addr q.2 <> ip) reqs ->
  ip_request_counter (serve cfg reqs s).2 !! ip = ip_request_counter s !! ip.
Proof.
  intros Hreqs. revert s.
  induction Hreqs as [|[[now e] rq] reqs Hrq _ IH]; intros s; [done|].
  rewrite serve_cons_state, IH. simpl in Hrq.
  unfold authenticate_route. rewrite rate_limited_unfold. cbn zeta.
  destruct (decide _).
  - simpl. by rewrite lookup_insert_ne.
  - rewrite keeps_counter_authenticate. simpl. by rewrite lookup_insert_ne.
Qed.

(** X3.  Once every recorded timestamp of the address is 60 or more old,
    a request is let through however many were recorded, and the record
    starts again with this request alone. *)
Theorem window_slides now e rq s :
  (forall t, t ∈ default [] (ip_request_counter s !! remote_addr rq) ->
             (60 <= now - t)%Z) ->
  authenticate_route cfg now e rq s =
    authenticate cfg e rq
      (mk_state (<[remote_addr rq := [now]]> (ip_request_counter s))
                (committed s) (seqs s) (conn s) (effects s)).
Proof.
  intros Hold.
  assert (Hnone : recent now (default [] (ip_request_counter s !! remote_addr rq))
                  = []).
  { destruct (recent now _) as [|t l] eqn:E; [done|].
    assert (Hin : t ∈ recent now
              (default [] (ip_request_counter s !! remote_addr rq)))
      by (rewrite E; apply list_elem_of_here).
    apply elem_of_recent in Hin as [Hlt Hin]. apply Hold in Hin.
    unfold RATE_PERIOD in Hlt. lia. }
  rewrite route_accepted; rewrite Hnone; [done|unfold RATE_LIMIT; simpl; lia].
Qed.

(** X4.  When a database call of the first transaction raises before the
    commit (connect, the SELECT, the first write), [authenticate] answers
    500 with the text of the exception and the committed rows are as
    before, whether the PIN is known or not. *)
Theorem authenticate_database_failure e rq s pin n msg :
  form_pin rq = Some pin -> pin <> "" ->
  conn_fault (users_conn e) = Some (n, msg) -> (n <= 2)%nat ->
  (authenticate cfg e rq s).1 = Ok (server_error msg) /\
  committed (authenticate cfg e rq s).2 = committed s.
Proof.
  destruct e as [[now fault] ae], s as [c t sq cn fx], rq as [ip p cid dv].
  simpl. intros -> Hne -> Hn. destruct pin as [|a pin]; [done|].
  unfold authenticate.
  destruct (select_user_by_pin (salted_digest cfg (String a pin)) t) eqn:Hu;
    destruct n as [|[|[|n]]]; try lia; run; rewrite ?Hu; run; done.
Qed.

(** X5.  With a known PIN and a working first transaction, the login is
    on record whatever happens afterwards in [set_on_call_number]: the
    users are the old ones with [last_login] of the caller set, and the
    audit log continues with the [successful_auth] entry, followed by the
    [on_call_update] entry or by nothing. *)
Theorem login_recorded_first e rq s pin u :
  form_pin rq = Some pin -> pin <> "" ->
  select_user_by_pin (salted_digest cfg pin) (committed s) = Some u ->
  conn_fault (users_conn e) = None ->
  let t' := committed (authenticate cfg e rq s).2 in
  let now := current_timestamp (users_conn e) in
  users t' =
    ((fun u' => if decide (u_id u' = u_id u)
                then touch_last_login now u' else u') <$> users (committed s))
  /\ exists rest,
       audit_log t' =
         (audit_log (committed s) ++
          mk_audit (audit_log_id_seq (seqs s) + 1) "successful_auth"
            (Some (u_id u))
            (Some ("Caller ID: " +:+ default "unknown" (form_caller_id rq)))
            (Some (remote_addr rq)) (Some now) :: rest)%list
       /\ (rest = [] \/
           exists row, rest = [row] /\ au_event_type row = "on_call_update").
Proof.
  intros Hpin Hne Hu Hnf t' now. subst t' now.
  rewrite (authenticate_found cfg e rq s pin u)
    by (done || by apply no_fault_before_None).
  rewrite bind_ret_state.
  match goal with
  | |- context [set_on_call_number cfg ?p ?i ?d ?a ?ae ?s1] =>
      destruct (assign_cases cfg p i d a ae s1) as [[-> _]| ->]
  end; cbn [committed users audit_log logged_in assigned].
  - split; [done|]. exists []. split; [done|by left].
  - split; [done|]. eexists [_]. rewrite <- app_assoc. split; [done|].
    right. eexists. split; done.
Qed.

End MoreAdmission.

(** X6.  The query never changes the committed rows or the sequences; it
    asks for [retic_water] when no division is given; a division without
    an open row is answered 404; and a database call that raises is
    answered 500 with the text of the exception. *)
Theorem query_read_only e rq s :
  let division := default "retic_water" (args_division rq) in
  let r := get_current_oncall e rq s in
  committed r.2 = committed s /\ seqs r.2 = seqs s
  /\ ip_request_counter r.2 = ip_request_counter s
  /\ (conn_fault e = None -> open_rows division (committed s) = [] ->
      r.1 = Ok (mk_response 404
                  (error_dict ("No on-call user set for division="
                               +:+ division))))
  /\ (forall n msg, conn_fault e = Some (n, msg) -> (n <= 2)%nat ->
      r.1 = Ok (server_error msg)).
Proof.
  intros division r. subst r division.
  split; [apply query_committed|].
  split; [|split; [|split]].
  - destruct e as [now fault], s as [c t sq cn fx], rq as [ip p cid dv].
    unfold get_current_oncall.
    destruct fault as [[[|[|[|n]]] msg]|]; run; try done;
      by destruct (select_current_on_call _ _).
  - destruct e as [now fault], s as [c t sq cn fx], rq as [ip p cid dv].
    unfold get_current_oncall.
    destruct fault as [[[|[|[|n]]] msg]|]; run; try done;
      by destruct (select_current_on_call _ _).
  - intros Hnf Hnone. rewrite query_faultless by by apply no_fault_before_None.
    unfold select_current_on_call. unfold open_rows in Hnone.
    by rewrite Hnone.
  - intros n msg Hf Hn.
    destruct e as [now fault], s as [c t sq cn fx], rq as [ip p cid dv].
    simpl in Hf. subst fault. unfold get_current_oncall.
    destruct n as [|[|[|n]]]; try lia; run; try done.
Qed.

(** * Properties of the token-protected API *)

(** ** [split] and the bearer token *)

Lemma split_from_skip sep a rest piece :
  split_from sep (a +:+ rest) (String.length a) piece
  = split_from sep rest 0 piece.
Proof.
  induction a as [|c a IH]; simpl.
  - by destruct rest.
  - apply IH.
Qed.

Lemma prefix_bearer_here rest :
  String.prefix "Bearer " ("Bearer " +:+ rest) = true.
Proof. simpl. by destruct rest. Qed.

Lemma prefix_cons c x a b :
  String.prefix (String c a) (String x b)
  = if Ascii.ascii_dec c x then String.prefix a b else false.
Proof. simpl. by destruct (Ascii.ascii_dec c x). Qed.

Lemma append_cons c a b : String c a +:+ b = String c (a +:+ b).
Proof. reflexivity. Qed.

(** A piece without a space cannot run into a separator that ends in its
    only space. *)
Lemma prefix_bearer_later tok tail :
  tok <> "" -> space_free tok ->
  tail = "" \/ (exists junk, tail = "Bearer " +:+ junk) ->
  String.prefix "Bearer " (tok +:+ tail) = false.
Proof.
  intros Hne Hsf Htail.
  destruct Htail as [->|[junk ->]];
    do 7 (destruct tok as [|? tok];
          [first [done | reflexivity]|];
          simpl in Hsf; destruct Hsf as [? Hsf];
          rewrite append_cons, prefix_cons;
          destruct (Ascii.ascii_dec _ _) as [<-|]; [|done]);
    done.
Qed.

Lemma append_empty_r s : s +:+ "" = s.
Proof. induction s as [|c s IH]; [done|]. by rewrite append_cons, IH. Qed.

Lemma append_assoc_str a b c : (a +:+ b) +:+ c = a +:+ b +:+ c.
Proof. induction a as [|x a IH]; [done|]. by rewrite !append_cons, IH. Qed.

Lemma split_from_last tok piece :
  space_free tok -> split_from "Bearer " tok 0 piece = [piece +:+ tok].
Proof.
  revert piece. induction tok as [|c tok IH]; intros piece Hsf.
  - by rewrite append_empty_r.
  - pose proof (prefix_bearer_later (String c tok) "" ltac:(done) Hsf
                  ltac:(by left)) as Hp.
    rewrite append_empty_r in Hp.
    cbn [split_from]. rewrite Hp.
    destruct Hsf as [_ Hsf]. rewrite IH by done.
    by rewrite append_assoc_str.
Qed.

Lemma split_from_next tok junk piece :
  space_free tok ->
  split_from "Bearer " (tok +:+ "Bearer " +:+ junk) 0 piece
  = (piece +:+ tok) :: str_split "Bearer " junk.
Proof.
  revert piece. induction tok as [|c tok IH]; intros piece Hsf.
  - rewrite append_empty_r.
    change ("" +:+ "Bearer " +:+ junk) with (String "B" ("earer " +:+ junk)).
    cbn [split_from].
    change (String "B" ("earer " +:+ junk)) with ("Bearer " +:+ junk).
    rewrite prefix_bearer_here. f_equal.
  - pose proof (prefix_bearer_later (String c tok) ("Bearer " +:+ junk)
                  ltac:(done) Hsf ltac:(right; by eexists)) as Hp.
    rewrite append_cons in *. cbn [split_from]. rewrite Hp.
    destruct Hsf as [_ Hsf]. rewrite IH by done.
    by rewrite append_assoc_str.
Qed.

Lemma split_bearer_first rest :
  str_split "Bearer " ("Bearer " +:+ rest) = "" :: str_split "Bearer " rest.
Proof.
  unfold str_split.
  change ("Bearer " +:+ rest) with (String "B" ("earer " +:+ rest)).
  cbn [split_from].
  change (String "B" ("earer " +:+ rest)) with ("Bearer " +:+ rest).
  by rewrite prefix_bearer_here.
Qed.

(** The token that [token_required] checks. *)
Lemma bearer_token tok tail :
  space_free tok ->
  tail = "" \/ (exists junk, tail = "Bearer " +:+ junk) ->
  str_split "Bearer " ("Bearer " +:+ tok +:+ tail) !! 1%nat = Some tok.
Proof.
  intros Hsf Htail. rewrite split_bearer_first. unfold str_split.
  destruct Htail as [->|[junk ->]].
  - rewrite append_empty_r, split_from_last by done. done.
  - rewrite split_from_next by done. done.
Qed.

Section Token.

Variable acfg : admin_config.

Lemma token_required_run f e rq s tok tail :
  header_authorization rq = Some ("Bearer " +:+ tok +:+ tail) ->
  space_free tok ->
  tail = "" \/ (exists junk, tail = "Bearer " +:+ junk) ->
  token_required acfg f e rq s =
    if jwt_decode acfg tok (SECRET_KEY acfg) (admin_now e)
    then f e rq s
    else (Ok (Answer invalid_token), s).
Proof.
  intros Hh Hsf Htail. unfold token_required. rewrite Hh.
  rewrite prefix_bearer_here, bearer_token by done.
  by destruct (jwt_decode _ _ _ _).
Qed.

(** X7.  Without an [Authorization] header, or with one that does not
    start with [Bearer ], the view is not run and the answer is 401.  With
    [Bearer ] followed by a token without spaces, the view runs exactly
    when [jwt.decode] accepts that token, and anything after a further
    [Bearer ] in the header is ignored. *)
Theorem token_required_bearer f e rq s :
  (header_authorization rq = None \/
   (exists h, header_authorization rq = Some h /\
              String.prefix "Bearer " h = false) ->
   token_required acfg f e rq s = (Ok (Answer missing_token), s))
  /\
  (forall tok tail,
     header_authorization rq = Some ("Bearer " +:+ tok +:+ tail) ->
     space_free tok ->
     tail = "" \/ (exists junk, tail = "Bearer " +:+ junk) ->
     token_required acfg f e rq s =
       if jwt_decode acfg tok (SECRET_KEY acfg) (admin_now e)
       then f e rq s
       else (Ok (Answer invalid_token), s)).
Proof.
  split.
  - intros [Hh|(h & Hh & Hp)]; unfold token_required; rewrite Hh; [done|].
    by rewrite Hp.
  - intros tok tail. apply token_required_run.
Qed.

(** X8.  The token that [get_token] issues for the administrator opens
    the protected views until it expires, a day later, provided the [jwt]
    module decodes what it encoded until the expiry and its tokens have no
    space. *)
Theorem issued_token_opens_api now rq :
  basic_authorization rq = Some (Some "admin", Some (ADMIN_PASSWORD acfg)) ->
  ADMIN_PASSWORD acfg <> "" ->
  let token := jwt_encode acfg "admin" (now + 86400) (SECRET_KEY acfg) in
  space_free token ->
  (forall later, (later < now + 86400)%Z ->
                 jwt_decode acfg token (SECRET_KEY acfg) later = true) ->
  get_token acfg now rq = jsonify (JObj [("token", JStr token)])
  /\ forall f e rq' s,
       header_authorization rq' = Some ("Bearer " +:+ token) ->
       (admin_now e < now + 86400)%Z ->
       token_required acfg f e rq' s = f e rq' s.
Proof.
  intros Hauth Hpw token Hsf Hjwt. split.
  - unfold get_token. rewrite Hauth.
    rewrite decide_False by (intros [?|?]; done).
    rewrite decide_False by (intros [?|?]; done). done.
  - intros f e rq' s Hh Hlater.
    rewrite (token_required_run f e rq' s token "");
      [by rewrite Hjwt|by rewrite append_empty_r|done|by left].
Qed.

End Token.

(** ** Running the views *)

Ltac run_api :=
  cbv beta iota zeta delta
    [hash_pin get_users admin_list_users create_user admin_update_user
     execute_returning execute_fetchall rollback insert_user update_user
     try_except bind ret raise get_db_connection execute
     execute_fetchone commit close on_conn
     fault_now insert_audit_log
     set_conn set_seqs set_committed log_effect set_counter
     conn committed seqs effects ip_request_counter
     conn_env_of conn_tables conn_calls conn_fault current_timestamp
     admin_now admin_conn next_user_id
     api_remote_addr header_authorization basic_authorization request_json
     set_phone set_name set_email set_division set_pin
     users on_call audit_log Nat.eqb fst snd].

Ltac decided_api :=
  repeat first [rewrite decide_True by done | rewrite decide_False by done];
  run_api.


(** Close [rows_extended] for rows that are the old ones, or the old ones
    with an audit entry more. *)
Ltac extended :=
  split; [reflexivity|first [reflexivity | by apply prefix_app_r]].

Section Views.

Variable cfg : config.
Variable acfg : admin_config.




Lemma create_user_rows e rq s :
  rows_extended (committed s) (committed (create_user cfg e rq s).2)
  /\ users (committed s) `prefix_of`
       users (committed (create_user cfg e rq s).2).
Proof.
  destruct e as [now [ts fault] id], s as [c t sq cn fx],
    rq as [ip h b [data|]]; unfold create_user; run_api;
    [|split; [extended|reflexivity]].
  destruct (data !! "pin") as [[pin|]|], (data !! "phone") as [phone|],
    (data !! "name") as [name|], (data !! "division") as [division|];
    run_api; try (split; [extended|reflexivity]).
  destruct phone as [phone|], division as [division|];
    fault_cases fault; run_api; try (split; [extended|reflexivity]);
    destruct (decide (id ∈ u_id <$> users t)); run_api;
    try (split; [extended|reflexivity]);
    repeat (destruct (decide _); run_api);
    try (split; [extended|first [reflexivity | by apply prefix_app_r]]).
Qed.


Lemma asks_for_nonempty data hashed : asks_for cfg data hashed -> data <> ∅.
Proof.
  intros [(_ & _ & H)|(pin & H & _)] ->; rewrite ?lookup_empty in *;
    [|done]. destruct H as [[? H]|[[? H]|[[? H]|[? H]]]]; done.
Qed.

(** An update of an existing user with a working database. *)
Lemma update_user_ok user_id e rq s data hashed :
  request_json rq = Some data -> asks_for cfg data hashed ->
  user_id ∈ (u_id <$> users (committed s)) ->
  data !! "phone" <> Some None -> data !! "division" <> Some None ->
  no_fault_before 5 (admin_conn e) ->
  let r := admin_update_user cfg acfg user_id e rq s in
  r.1 = Ok (Answer (user_updated user_id))
  /\ committed r.2 =
       mk_tables
         ((fun u => if decide (u_id u = user_id)
                    then patched (patch_of data hashed) u else u)
            <$> users (committed s))
         (on_call (committed s))
         (audit_log (committed s) ++
          [mk_audit (audit_log_id_seq (seqs s) + 1) "admin_update_user"
             (Some user_id) (Some (dict_str acfg data))
             (Some (api_remote_addr rq))
             (Some (current_timestamp (admin_conn e)))]).
Proof.
  destruct e as [now [ts fault] id], s as [c t sq cn fx],
    rq as [ip h b d]. simpl.
  intros -> Hasks Hin Hphone Hdiv Hnf.
  pose proof (asks_for_nonempty _ _ Hasks) as Hne.
  assert (Hfk : forall p,
            references_user (Some user_id)
              (mk_tables
                 ((fun u => if decide (u_id u = user_id)
                            then patched p u else u) <$> users t)
                 (on_call t) (audit_log t))).
  { intros p. simpl. rewrite <- list_fmap_compose.
    erewrite list_fmap_ext; [exact Hin|].
    intros i u _. simpl. by destruct (decide _). }
  assert (Hcols : ~ no_columns (patch_of data hashed)).
  { unfold no_columns, patch_of. simpl.
    destruct Hasks as [(_ & _ & H)|(pin & _ & ->)];
      [|intros (_ & _ & _ & _ & ?); done].
    intros (H1 & H2 & H3 & H4 & _). rewrite H1, H2, H3, H4 in H.
    destruct H as [[? H]|[[? H]|[[? H]|[? H]]]]; done. }
  assert (Hnull : ~ (data !! "phone" = Some None \/
                     data !! "division" = Some None)) by tauto.
  unfold admin_update_user, patch_of in *. run_api.
  rewrite (decide_False _ _ Hne).
  destruct Hasks as [(Hpin & -> & _)|(pin & Hpin & ->)]; rewrite Hpin;
    run_api; rewrite (decide_False _ _ Hcols);
    fault_cases fault; run_api; rewrite (decide_True _ _ Hin); run_api;
    rewrite (decide_False _ _ Hnull); run_api;
    rewrite (decide_True _ _ (Hfk _)); run_api; done.
Qed.


(** An update of a user that does not exist: nothing is committed. *)
Lemma update_user_missing user_id e rq s data hashed :
  request_json rq = Some data -> asks_for cfg data hashed ->
  user_id ∉ (u_id <$> users (committed s)) ->
  no_fault_before 4 (admin_conn e) ->
  let r := admin_update_user cfg acfg user_id e rq s in
  r.1 = Ok (Answer (no_such_user user_id)) /\ committed r.2 = committed s.
Proof.
  destruct e as [now [ts fault] id], s as [c t sq cn fx],
    rq as [ip h b d]. simpl.
  intros -> Hasks Hin Hnf.
  pose proof (asks_for_nonempty _ _ Hasks) as Hne.
  assert (Hcols : ~ no_columns (patch_of data hashed)).
  { unfold no_columns, patch_of. simpl.
    destruct Hasks as [(_ & _ & H)|(pin & _ & ->)];
      [|intros (_ & _ & _ & _ & ?); done].
    intros (H1 & H2 & H3 & H4 & _). rewrite H1, H2, H3, H4 in H.
    destruct H as [[? H]|[[? H]|[[? H]|[? H]]]]; done. }
  unfold admin_update_user, patch_of in *. run_api.
  rewrite (decide_False _ _ Hne).
  destruct Hasks as [(Hpin & -> & _)|(pin & Hpin & ->)]; rewrite Hpin;
    run_api; rewrite (decide_False _ _ Hcols);
    fault_cases fault; run_api; rewrite (decide_False _ _ Hin); run_api;
    done.
Qed.

Lemma admin_update_user_rows user_id e rq s :
  rows_extended (committed s)
    (committed (admin_update_user cfg acfg user_id e rq s).2).
Proof.
  destruct e as [now [ts fault] id], s as [c t sq cn fx],
    rq as [ip h b [data|]]; unfold admin_update_user; run_api;
    [|extended].
  destruct (decide (data = ∅)); run_api; [extended|].
  destruct (data !! "pin") as [[pin|]|]; run_api; try extended;
    (destruct (decide (no_columns _)); run_api; [extended|]);
    fault_cases fault; run_api; try extended;
    (destruct (decide (user_id ∈ _)); run_api; try extended);
    repeat (destruct (decide _); run_api; try extended).
Qed.

Lemma listing_state (q : tables -> list json) e s :
  let r :=
    try_except
      (get_db_connection (admin_conn e) ;;;
       rows <- execute_fetchall q ;;
       close ;;;
       ret (UserList rows))
      (fun err => ret (Answer (server_error err))) s in
  committed r.2 = committed s /\ seqs r.2 = seqs s /\
  (no_fault_before 3 (admin_conn e) -> r.1 = Ok (UserList (q (committed s)))).
Proof.
  destruct e as [now [ts fault] id], s as [c t sq cn fx].
  destruct fault as [[[|[|[|n]]] msg]|]; run_api;
    unfold no_fault_before; simpl; repeat split; try done; lia.
Qed.

(** The decorator either answers by itself, leaving the state alone, or
    hands over to the view. *)
Lemma token_required_cases f e rq s :
  (token_required acfg f e rq s).2 = s
  \/ token_required acfg f e rq s = f e rq s.
Proof.
  unfold token_required.
  destruct (header_authorization rq) as [h|]; [|by left].
  destruct (String.prefix _ _); [|by left].
  destruct (_ !! _); [|by left].
  destruct (jwt_decode _ _ _ _); [by right|by left].
Qed.

End Views.

Section ViewProperties.

Variable cfg : config.
Variable acfg : admin_config.


(** X9.  Without a body, or with a body that lacks one of [pin], [phone],
    [name], [division], [create_user] answers 400 and the state is exactly
    as before: no digest is computed and the database is not called. *)
Theorem create_user_needs_all_fields e rq s :
  request_json rq = None \/
  (exists data k,
     request_json rq = Some data /\
     k ∈ ["pin"; "phone"; "name"; "division"] /\ data !! k = None) ->
  create_user cfg e rq s = (Ok (Answer missing_fields), s).
Proof.
  unfold create_user. intros [->|(data & k & -> & Hk & Hnone)]; [done|].
  repeat (apply elem_of_cons in Hk as [->|Hk]);
    [..|by apply not_elem_of_nil in Hk]; rewrite Hnone;
    repeat (destruct (data !! _) as [?|]); done.
Qed.



(** X11.  [create_user] is all or nothing: when a database call up to the
    commit raises, when [phone] or [division] is null, or when the id is
    taken, the answer is 500 with the text of the exception and the
    committed rows are as before. *)
Theorem create_user_all_or_nothing e rq s data pin phone name division :
  request_json rq = Some data ->
  data !! "pin" = Some (Some pin) -> data !! "phone" = Some phone ->
  data !! "name" = Some name -> data !! "division" = Some division ->
  (exists n msg, conn_fault (admin_conn e) = Some (n, msg) /\ (n <= 3)%nat)
  \/ (no_fault_before 2 (admin_conn e) /\
      (phone = None \/ division = None \/
       next_user_id e ∈ (u_id <$> users (committed s)))) ->
  exists msg,
    (create_user cfg e rq s).1 = Ok (Answer (server_error msg)) /\
    committed (create_user cfg e rq s).2 = committed s.
Proof.
  destruct e as [now [ts fault] id], s as [c t sq cn fx],
    rq as [ip h b d]. simpl.
  intros -> Hpin Hphone Hname Hdiv Hbad.
  unfold create_user. run_api. rewrite Hpin, Hphone, Hname, Hdiv.
  destruct Hbad as [(n & msg & -> & Hn)|[Hnf Hbad]].
  - destruct (decide (id ∈ u_id <$> users t)) as [Hid|Hid];
      destruct phone as [phone|], division as [division|];
      destruct n as [|[|[|[|n]]]]; try lia; run_api; decided_api;
      try (by eexists);
      (rewrite decide_True;
       [run_api; by eexists
       |simpl; rewrite fmap_app; apply elem_of_app; right;
        apply list_elem_of_here]).
  - destruct phone as [phone|], division as [division|];
      fault_cases fault; run_api; try (by eexists);
      (destruct Hbad as [?|[?|Hid]]; [done..|]);
      rewrite (decide_True _ _ Hid); run_api; by eexists.
Qed.

(** X12.  [admin_update_user] is all or nothing: when a database call up
    to the commit raises, or when [phone] or [division] of an existing
    user is to be set to null, the answer is 500 with the text of the
    exception and the committed rows are as before. *)
Theorem admin_update_all_or_nothing user_id e rq s data hashed :
  request_json rq = Some data -> asks_for cfg data hashed ->
  (exists n msg, conn_fault (admin_conn e) = Some (n, msg) /\ (n <= 3)%nat
                 /\ user_id ∈ (u_id <$> users (committed s)))
  \/ (no_fault_before 2 (admin_conn e) /\
      user_id ∈ (u_id <$> users (committed s)) /\
      (data !! "phone" = Some None \/ data !! "division" = Some None)) ->
  exists msg,
    (admin_update_user cfg acfg user_id e rq s).1
      = Ok (Answer (server_error msg)) /\
    committed (admin_update_user cfg acfg user_id e rq s).2 = committed s.
Proof.
  destruct e as [now [ts fault] id], s as [c t sq cn fx],
    rq as [ip h b d]. simpl.
  intros -> Hasks Hbad.
  pose proof (asks_for_nonempty cfg _ _ Hasks) as Hne.
  assert (Hcols : ~ no_columns (patch_of data hashed)).
  { unfold no_columns, patch_of. simpl.
    destruct Hasks as [(_ & _ & H)|(pin & _ & ->)];
      [|intros (_ & _ & _ & _ & ?); done].
    intros (H1 & H2 & H3 & H4 & _). rewrite H1, H2, H3, H4 in H.
    destruct H as [[? H]|[[? H]|[[? H]|[? H]]]]; done. }
  assert (Hfk : forall p,
            references_user (Some user_id)
              (mk_tables
                 ((fun u => if decide (u_id u = user_id)
                            then patched p u else u) <$> users t)
                 (on_call t) (audit_log t)) <->
            user_id ∈ (u_id <$> users t)).
  { intros p. simpl. rewrite <- list_fmap_compose.
    erewrite list_fmap_ext; [done|].
    intros i u _. simpl. by destruct (decide _). }
  unfold admin_update_user, patch_of in *. run_api.
  rewrite (decide_False _ _ Hne).
  destruct Hasks as [(Hpin & -> & _)|(pin & Hpin & ->)]; rewrite Hpin;
    run_api; rewrite (decide_False _ _ Hcols);
    (destruct Hbad as [(n & msg & -> & Hn & Hin)|(Hnf & Hin & Hnull)];
     [destruct (decide (data !! "phone" = Some None \/
                        data !! "division" = Some None));
      destruct n as [|[|[|[|n]]]]; try lia; run_api;
      rewrite ?(decide_True _ _ Hin); run_api; decided_api;
      try (by eexists);
      rewrite decide_True by (by apply Hfk); run_api; by eexists
     |fault_cases fault; run_api; rewrite (decide_True _ _ Hin); run_api;
      rewrite (decide_True _ _ Hnull); run_api; by eexists]).
Qed.

(** X13.  An update for an id that no user has is answered 404 after a
    rollback: no row is changed and no audit entry is written, whatever
    the body asks for. *)
Theorem update_unknown_user user_id e rq s data hashed :
  request_json rq = Some data -> asks_for cfg data hashed ->
  user_id ∉ (u_id <$> users (committed s)) ->
  conn_fault (admin_conn e) = None ->
  let r := admin_update_user cfg acfg user_id e rq s in
  r.1 = Ok (Answer (mk_response 404
                      (error_dict ("No user found with id "
                                   +:+ pretty user_id))))
  /\ committed r.2 = committed s.
Proof.
  intros Hdata Hasks Hin Hnf.
  apply (update_user_missing cfg acfg user_id e rq s data hashed);
    try done. by apply no_fault_before_None.
Qed.


(** X14.  A successful update changes, in the row of the user and nowhere
    else, exactly the columns the body names: [id], [created_at] and
    [last_login] are never changed, a PIN is stored as its salted digest,
    the ledger is untouched, and one [admin_update_user] audit entry is
    added. *)
Theorem update_changes_only_listed user_id e rq s data hashed :
  request_json rq = Some data -> asks_for cfg data hashed ->
  user_id ∈ (u_id <$> users (committed s)) ->
  data !! "phone" <> Some None -> data !! "division" <> Some None ->
  conn_fault (admin_conn e) = None ->
  let t' := committed (admin_update_user cfg acfg user_id e rq s).2 in
  on_call t' = on_call (committed s)
  /\ audit_log t' =
       (audit_log (committed s) ++
        [mk_audit (audit_log_id_seq (seqs s) + 1) "admin_update_user"
           (Some user_id) (Some (dict_str acfg data))
           (Some (api_remote_addr rq))
           (Some (current_timestamp (admin_conn e)))])%list
  /\ Forall2
       (fun u u' =>
          u_id u' = u_id u /\ u_created_at u' = u_created_at u /\
          u_last_login u' = u_last_login u /\
          (u_id u <> user_id -> u' = u) /\
          (u_id u = user_id ->
             u_pin u' = default (u_pin u) hashed /\
             u_phone u' = match data !! "phone" with
                          | Some (Some v) => v
                          | _ => u_phone u
                          end /\
             u_name u' = default (u_name u) (data !! "name") /\
             u_email u' = default (u_email u) (data !! "email") /\
             u_division u' = match data !! "division" with
                             | Some (Some v) => v
                             | _ => u_division u
                             end))
       (users (committed s)) (users t').
Proof.
  intros Hdata Hasks Hin Hphone Hdiv Hnf t'. subst t'.
  destruct (update_user_ok cfg acfg user_id e rq s data hashed)
    as [_ ->]; try done; [by apply no_fault_before_None|].
  cbn [on_call audit_log users]. split; [done|]. split; [done|].
  apply Forall2_fmap_r, Forall_Forall2_diag, Forall_forall.
  intros u _. simpl. by destruct (decide (u_id u = user_id)).
Qed.

(** X15.  After the PIN of a user is changed through the API, the lookup
    for the new PIN returns that user, provided no other user has its
    digest, and the lookup for any PIN with another digest, the old one
    included, never returns that user. *)
Theorem pin_change_round_trip user_id e rq s data pin :
  request_json rq = Some data -> data !! "pin" = Some (Some pin) ->
  user_id ∈ (u_id <$> users (committed s)) ->
  data !! "phone" <> Some None -> data !! "division" <> Some None ->
  conn_fault (admin_conn e) = None ->
  (forall u, u ∈ users (committed s) -> u_id u <> user_id ->
             u_pin u <> salted_digest cfg pin) ->
  let t' := committed (admin_update_user cfg acfg user_id e rq s).2 in
  (exists v, select_user_by_pin (salted_digest cfg pin) t' = Some v /\
             u_id v = user_id)
  /\ (forall other v,
        salted_digest cfg other <> salted_digest cfg pin ->
        select_user_by_pin (salted_digest cfg other) t' = Some v ->
        u_id v <> user_id).
Proof.
  intros Hdata Hpin Hin Hphone Hdiv Hnf Hothers t'. subst t'.
  destruct (update_user_ok cfg acfg user_id e rq s data
              (Some (salted_digest cfg pin)))
    as [_ ->]; try done;
    [right; by eexists|by apply no_fault_before_None|].
  unfold select_user_by_pin. cbn [users].
  apply list_elem_of_fmap in Hin as (u0 & Hid0 & Hu0).
  split.
  - destruct (filter _ _) as [|v l] eqn:Hf.
    + exfalso. eapply (not_elem_of_nil (A:=user)). rewrite <- Hf.
      apply list_elem_of_filter. split; [|apply list_elem_of_fmap_2, Hu0].
      by rewrite decide_True.
    + exists v. split; [done|].
      assert (Hv : v ∈ v :: l) by apply list_elem_of_here.
      rewrite <- Hf in Hv. apply list_elem_of_filter in Hv as [Hpv Hv].
      apply list_elem_of_fmap in Hv as (u & -> & Hu).
      destruct (decide (u_id u = user_id)) as [Heq|Hneq]; [done|].
      by destruct (Hothers u Hu Hneq).
  - intros other v Hdiff Hsel. apply head_Some_elem_of in Hsel.
    apply list_elem_of_filter in Hsel as [Hpv Hv].
    apply list_elem_of_fmap in Hv as (u & -> & Hu).
    destruct (decide (u_id u = user_id)) as [Heq|Hneq]; [|done].
    simpl in Hpv. congruence.
Qed.

End ViewProperties.

(** ** What the query reads of the users *)

Lemma patch_keeps_ids p user_id (us : list user) :
  u_id <$> ((fun u => if decide (u_id u = user_id)
                      then patched p u else u) <$> us)
  = u_id <$> us.
Proof.
  rewrite <- list_fmap_compose. apply list_fmap_ext.
  intros i u _. simpl. by destruct (decide _).
Qed.

Lemma joined_assignments o (us us' : list user) :
  u_id <$> us' = u_id <$> us ->
  assignment_of <$>
    (u ← filter (fun u => oc_user_id o = Some (u_id u)) us';
     [mk_view (oc_phone o) (oc_start_time o) (u_name u) (u_id u)
              (oc_division o)])
  = assignment_of <$>
      (u ← filter (fun u => oc_user_id o = Some (u_id u)) us;
       [mk_view (oc_phone o) (oc_start_time o) (u_name u) (u_id u)
                (oc_division o)]).
Proof.
  revert us'. induction us as [|u us IH]; intros [|u' us'] Hids;
    try done.
  injection Hids as Hid Hids. rewrite !filter_cons, Hid.
  destruct (decide _); [|by apply IH].
  rewrite !bind_cons, !fmap_app. f_equal; [|by apply IH].
  simpl. unfold assignment_of. simpl. by rewrite Hid.
Qed.

Lemma limit_1_assignments_from (b b' : option on_call_view)
    (l l' : list on_call_view) :
  assignment_of <$> b' = assignment_of <$> b ->
  assignment_of <$> l' = assignment_of <$> l ->
  assignment_of <$>
    foldl (fun best r =>
             match best with
             | None => Some r
             | Some b => if decide (sorts_before r b) then Some r else Some b
             end) b' l'
  = assignment_of <$>
      foldl (fun best r =>
               match best with
               | None => Some r
               | Some b => if decide (sorts_before r b) then Some r else Some b
               end) b l.
Proof.
  revert b b' l'.
  induction l as [|r l IH]; intros b b' [|r' l'] Hb Hl; try done.
  rewrite !fmap_cons in Hl.
  assert (Hr : assignment_of r' = assignment_of r) by congruence.
  assert (Hl' : assignment_of <$> l' = assignment_of <$> l) by congruence.
  simpl. apply IH; [|done].
  destruct b as [x|], b' as [x'|]; try done; simpl in Hb;
    [|simpl; by rewrite Hr].
  assert (Hx : assignment_of x' = assignment_of x) by congruence.
  assert (Hsb : sorts_before r' x' <-> sorts_before r x).
  { unfold sorts_before. unfold assignment_of in Hr, Hx.
    assert (Hs : v_start_time r' = v_start_time r) by congruence.
    assert (Hs' : v_start_time x' = v_start_time x) by congruence.
    by rewrite Hs, Hs'. }
  destruct (decide (sorts_before r' x')), (decide (sorts_before r x));
    simpl; first [tauto | by rewrite Hr | by rewrite Hx].
Qed.

Lemma current_assignment_same division (t t' : tables) :
  on_call t' = on_call t -> u_id <$> users t' = u_id <$> users t ->
  assignment_of <$> select_current_on_call division t'
  = assignment_of <$> select_current_on_call division t.
Proof.
  intros Hoc Hids. unfold select_current_on_call, order_desc_limit_1.
  apply limit_1_assignments_from; [done|]. rewrite Hoc.
  induction (filter (is_open_for division) (on_call t)) as [|o l IH];
    [done|].
  rewrite !bind_cons, !fmap_app. f_equal; [|exact IH].
  by apply joined_assignments.
Qed.

Section UsersAndLedger.

Variable cfg : config.
Variable acfg : admin_config.

Lemma admin_update_user_ids user_id e rq s :
  u_id <$> users (committed (admin_update_user cfg acfg user_id e rq s).2)
  = u_id <$> users (committed s).
Proof.
  destruct e as [now [ts fault] id], s as [c t sq cn fx],
    rq as [ip h b [data|]]; unfold admin_update_user; run_api; [|done].
  destruct (decide (data = ∅)); run_api; [done|].
  destruct (data !! "pin") as [[pin|]|]; run_api; try done;
    (destruct (decide (no_columns _)); run_api; [done|]);
    fault_cases fault; run_api; try done;
    (destruct (decide (user_id ∈ _)); run_api; try done);
    repeat (destruct (decide _); run_api; try done);
    apply patch_keeps_ids.
Qed.

(** X16.  Whatever an update through the admin API does to the users, the
    query keeps returning the same assignment for every division: the
    number, start, user and division come from the ledger row, so a changed
    phone number of the user on call is not the number returned until that
    user authenticates again. *)
Theorem update_leaves_assignment user_id e rq s division :
  assignment_of <$>
    select_current_on_call division
      (committed (admin_update_user cfg acfg user_id e rq s).2)
  = assignment_of <$> select_current_on_call division (committed s).
Proof.
  apply current_assignment_same; [|apply admin_update_user_ids].
  apply admin_update_user_rows.
Qed.

(** X17.  [get_users] changes neither rows nor sequences, and with a
    working database it returns one object per user, in table order, that
    carries the user's id and no member [pin]: the digest is not given
    out. *)
Theorem get_users_hides_digest e rq s :
  let r := get_users e rq s in
  committed r.2 = committed s /\ seqs r.2 = seqs s
  /\ (conn_fault (admin_conn e) = None ->
      exists rows,
        r.1 = Ok (UserList rows) /\
        Forall2 (fun u row =>
                   json_get "id" row = inl (Some (JInt (u_id u))) /\
                   json_get "phone" row = inl (Some (JStr (u_phone u))) /\
                   json_get "pin" row = inl None)
                (users (committed s)) rows).
Proof.
  intros r. subst r. unfold get_users.
  destruct (listing_state select_users_public e s) as (Hc & Hs & Hok).
  split; [done|]. split; [done|]. intros Hnf.
  eexists. split; [by apply Hok, no_fault_before_None|].
  unfold select_users_public.
  apply Forall2_fmap_r, Forall_Forall2_diag, Forall_forall.
  intros u _. done.
Qed.

(** X18.  [admin_list_users] changes neither rows nor sequences, and with
    a working database it returns the rows of all users, each once, in
    ascending order of [id], with the stored digest under [pin]. *)
Theorem admin_list_users_sorted e rq s :
  let r := admin_list_users e rq s in
  committed r.2 = committed s /\ seqs r.2 = seqs s
  /\ (conn_fault (admin_conn e) = None ->
      exists sorted,
        r.1 = Ok (UserList (user_row_json <$> sorted)) /\
        sorted ≡ₚ users (committed s) /\
        Sorted id_le sorted /\
        Forall (fun u =>
                  json_get "pin" (user_row_json u)
                  = inl (Some (JStr (u_pin u)))) sorted).
Proof.
  intros r. subst r. unfold admin_list_users.
  destruct (listing_state select_users_by_id e s) as (Hc & Hs & Hok).
  split; [done|]. split; [done|]. intros Hnf.
  exists (merge_sort id_le (users (committed s))).
  split; [by apply Hok, no_fault_before_None|].
  split; [apply merge_sort_Permutation|].
  split; [apply (Sorted_merge_sort id_le)|].
  apply Forall_forall. intros u _. done.
Qed.

End UsersAndLedger.

(** ** What no request ever does to the ledger and the audit log *)

Lemma row_kept_refl o : row_kept o o.
Proof. by repeat split. Qed.

Lemma row_kept_trans o1 o2 o3 : row_kept o1 o2 -> row_kept o2 o3 -> row_kept o1 o3.
Proof.
  intros (?&?&?&?&?&H12) (?&?&?&?&?&H23). repeat split; try congruence.
  intros Hend. rewrite H23; [by apply H12|]. by rewrite H12.
Qed.

Lemma ledger_grows_refl l : ledger_grows l l.
Proof.
  exists l, []. split; [by rewrite app_nil_r|].
  apply Forall_Forall2_diag, Forall_forall. intros o _. apply row_kept_refl.
Qed.

Lemma ledger_grows_trans l1 l2 l3 :
  ledger_grows l1 l2 -> ledger_grows l2 l3 -> ledger_grows l1 l3.
Proof.
  intros (k2 & m2 & -> & H12) (k3 & m3 & -> & H23).
  apply Forall2_app_inv_l in H23 as (k3a & k3b & Ha & Hb & ->).
  exists k3a, (k3b ++ m3)%list. split; [by rewrite app_assoc|].
  eapply Forall2_trans; [|exact H12|exact Ha].
  intros o1 o2 o3. apply row_kept_trans.
Qed.

Lemma history_kept_refl t : history_kept t t.
Proof. split; [apply ledger_grows_refl|done]. Qed.

Lemma history_kept_trans t1 t2 t3 :
  history_kept t1 t2 -> history_kept t2 t3 -> history_kept t1 t3.
Proof.
  intros [H12 P12] [H23 P23]. split.
  - by eapply ledger_grows_trans.
  - by etrans.
Qed.

Lemma rows_extended_history t t' : rows_extended t t' -> history_kept t t'.
Proof. intros [Hoc Hp]. split; [rewrite Hoc; apply ledger_grows_refl|done]. Qed.

Lemma assigned_history phone uid d ip now sq t :
  history_kept t (assigned phone uid d ip now sq t).
Proof.
  split; [|by apply prefix_app_r].
  eexists _, _. split; [reflexivity|].
  apply Forall2_fmap_r, Forall_Forall2_diag, Forall_forall.
  intros o _. simpl. destruct (decide (is_open_for d o)) as [[Hend _]|_];
    [|apply row_kept_refl].
  by repeat split.
Qed.

Section History.

Variable cfg : config.
Variable acfg : admin_config.

Lemma assign_history phone uid d ip e s :
  history_kept (committed s)
    (committed (set_on_call_number cfg phone uid d ip e s).2).
Proof.
  destruct (assign_cases cfg phone uid d ip e s) as [[-> _]| ->];
    [apply history_kept_refl|apply assigned_history].
Qed.

Lemma authenticate_rows e rq s :
  rows_extended (committed s) (committed (authenticate cfg e rq s).2)
  \/ exists u s1,
       rows_extended (committed s) (committed s1) /\
       (authenticate cfg e rq s).2 =
         (set_on_call_number cfg (u_phone u) (u_id u) (u_division u)
            (remote_addr rq) (assign e) s1).2.
Proof.
  destruct (form_pin rq) as [[|a pin]|] eqn:Hpin;
    [left; unfold authenticate; rewrite Hpin; extended| |
     left; unfold authenticate; rewrite Hpin; extended].
  destruct (select_user_by_pin (salted_digest cfg (String a pin)) (committed s))
    as [u|] eqn:Hu.
  - destruct (conn_fault (users_conn e)) as [[n msg]|] eqn:Hf;
      [destruct (decide (6 <= n)%nat) as [Hn|Hn]|].
    2:{ left. destruct e as [[now fault] ae], s as [c t sq cn fx],
          rq as [ip p cid dv]. simpl in *. subst.
        unfold authenticate.
        destruct n as [|[|[|[|[|[|n]]]]]]; try lia; run; rewrite ?Hu; run;
          try extended; case_decide; run; extended. }
    all: right; eexists _, _;
      (split; [|erewrite authenticate_found;
                [apply bind_ret_state|done..|unfold no_fault_before;
                                               by rewrite Hf]]);
      unfold logged_in; simpl; extended.
  - left. destruct (conn_fault (users_conn e)) as [[n msg]|] eqn:Hf;
      [destruct (decide (5 <= n)%nat) as [Hn|Hn]|].
    2:{ destruct e as [[now fault] ae], s as [c t sq cn fx],
          rq as [ip p cid dv]. simpl in *. subst.
        unfold authenticate.
        destruct n as [|[|[|[|[|n]]]]]; try lia; run; rewrite ?Hu; run;
          decided; extended. }
    all: erewrite authenticate_not_found;
      [|done..|unfold no_fault_before; by rewrite Hf];
      unfold auth_failed; simpl; extended.
Qed.

Lemma route_history now e rq s :
  history_kept (committed s) (committed (authenticate_route cfg now e rq s).2).
Proof.
  unfold authenticate_route. rewrite rate_limited_unfold. cbn zeta.
  destruct (decide _); [apply history_kept_refl|].
  match goal with
  | |- context [authenticate cfg e rq ?s0] =>
      destruct (authenticate_rows e rq s0) as [H|(u & s1 & H & ->)]
  end.
  - by apply rows_extended_history.
  - eapply history_kept_trans; [|apply assign_history].
    by apply rows_extended_history.
Qed.

Lemma view_history f e rq s :
  (forall e rq s, rows_extended (committed s) (committed (f e rq s).2)) ->
  rows_extended (committed s) (committed (token_required acfg f e rq s).2).
Proof.
  intros Hf. destruct (token_required_cases acfg f e rq s) as [-> | ->];
    [extended|apply Hf].
Qed.

Lemma listing_rows (q : tables -> list json) e s :
  rows_extended (committed s)
    (committed
       (try_except
          (get_db_connection (admin_conn e) ;;;
           rows <- execute_fetchall q ;;
           close ;;;
           ret (UserList rows))
          (fun err => ret (Answer (server_error err))) s).2).
Proof.
  destruct (listing_state q e s) as (-> & _). extended.
Qed.

Lemma api_step_rows s s' :
  api_step cfg acfg s s' ->
  history_kept (committed s) (committed s')
  /\ (ledger_invariant (committed s) -> ledger_invariant (committed s')).
Proof.
  destruct 1.
  - split; [apply route_history|apply route_invariant].
  - rewrite query_committed. split; [apply history_kept_refl|done].
  - pose proof (view_history get_users e rq s
                  (fun e _ s => listing_rows select_users_public e s))
      as [Hoc Hp].
    split; [by apply rows_extended_history|].
    intros Hs. by eapply ledger_invariant_on_call.
  - pose proof (view_history (create_user cfg) e rq s
                  (fun e rq s => proj1 (create_user_rows cfg e rq s)))
      as [Hoc Hp].
    split; [by apply rows_extended_history|].
    intros Hs. by eapply ledger_invariant_on_call.
  - pose proof (view_history admin_list_users e rq s
                  (fun e _ s => listing_rows select_users_by_id e s))
      as [Hoc Hp].
    split; [by apply rows_extended_history|].
    intros Hs. by eapply ledger_invariant_on_call.
  - pose proof (view_history (admin_update_user cfg acfg user_id) e rq s
                  (admin_update_user_rows cfg acfg user_id))
      as [Hoc Hp].
    split; [by apply rows_extended_history|].
    intros Hs. by eapply ledger_invariant_on_call.
Qed.

Lemma api_reach_rows s s' :
  rtc (api_step cfg acfg) s s' ->
  history_kept (committed s) (committed s')
  /\ (ledger_invariant (committed s) -> ledger_invariant (committed s')).
Proof.
  induction 1 as [s|s1 s2 s3 Hstep _ [IHh IHi]].
  - split; [apply history_kept_refl|done].
  - destruct (api_step_rows _ _ Hstep) as [Hh Hi]. split.
    + by eapply history_kept_trans.
    + auto.
Qed.

(** X19.  The ledger is a history: whatever requests the application
    serves one after the other, every ledger row stays where it is with
    its id, number, user, division and start, a row once closed keeps its
    end time, and new rows only come after the old ones. *)
Theorem ledger_is_append_only s s' :
  rtc (api_step cfg acfg) s s' ->
  exists kept more,
    on_call (committed s') = (kept ++ more)%list /\
    Forall2
      (fun o o' =>
         oc_id o' = oc_id o /\ oc_phone o' = oc_phone o /\
         oc_user_id o' = oc_user_id o /\ oc_division o' = oc_division o /\
         oc_start_time o' = oc_start_time o /\
         (oc_end_time o <> None -> oc_end_time o' = oc_end_time o))
      (on_call (committed s)) kept.
Proof. intros Hreach. by destruct (api_reach_rows _ _ Hreach) as [[Hl _] _]. Qed.

(** X20.  The audit log is only ever appended to: after any requests
    served one after the other the old entries are still there, unchanged
    and in front. *)
Theorem audit_log_is_append_only s s' :
  rtc (api_step cfg acfg) s s' ->
  audit_log (committed s) `prefix_of` audit_log (committed s').
Proof. intros Hreach. by destruct (api_reach_rows _ _ Hreach) as [[_ Hp] _]. Qed.

(** X21.  The views of the admin API do not touch the ledger, so with
    them in play as well, and the requests served sequentially, each one
    to its end before the next, every division still has at most one open
    row in every state reached from one where that holds.  Requests that
    overlap in time are outside this statement. *)
Theorem single_open_row_under_api s s' :
  ledger_invariant (committed s) ->
  rtc (api_step cfg acfg) s s' ->
  forall division, (length (open_rows division (committed s')) <= 1)%nat.
Proof. intros Hs Hreach. by apply (api_reach_rows _ _ Hreach). Qed.

End History.

(** * Properties of the IVR client *)

(** Settle what the run ended with against what the backend did. *)
Ltac agi_cases :=
  repeat split; try done;
  first
    [ by eauto 8
    | intros;
      repeat match goal with
             | H : _ \/ _ |- _ => destruct H
             | H : exists _, _ |- _ => destruct H
             | H : _ /\ _ |- _ => destruct H
             end;
      congruence ].

(** X22.  The script always returns.  Without a PIN argument it sends
    nothing, plays the error prompt and exits with status 1.  With one it
    posts the PIN and the caller id (["unknown"] when not given) and goes
    to [auth_success] exactly when the answer has status 200 and a JSON
    object whose [status] is ["success"]; it plays the error prompt exactly
    when the request fails, gets no answer in time, or a 200 answer is not
    such an object; in every other case it goes to [auth_failure]. *)
Theorem agi_decision backend :
  (exists run,
     main [] backend = Ok run /\ agi_posted run = None /\
     agi_exit run = Some 1%Z /\
     last (agi_commands run)
       = Some (ExecCommand "Playback" "custom/system-error"))
  /\
  (forall pin rest,
     let caller_id := default "unknown" (head rest) in
     exists run,
       main (pin :: rest) backend = Ok run /\
       agi_posted run = Some (pin, caller_id) /\ agi_exit run = None /\
       (last (agi_commands run) = Some (ExecCommand "Goto" "auth_success,1")
        <-> exists j, backend pin caller_id = Replied 200 (inl j) /\
                      json_get "status" j = inl (Some (JStr "success")))
       /\
       (last (agi_commands run)
          = Some (ExecCommand "Playback" "custom/system-error")
        <-> (exists err, backend pin caller_id = Refused err)
            \/ backend pin caller_id = Silent
            \/ (exists err, backend pin caller_id = Replied 200 (inr err))
            \/ (exists j err, backend pin caller_id = Replied 200 (inl j) /\
                              json_get "status" j = inr err))
       /\
       (last (agi_commands run) = Some (ExecCommand "Goto" "auth_success,1")
        \/ last (agi_commands run)
             = Some (ExecCommand "Playback" "custom/system-error")
        \/ last (agi_commands run)
             = Some (ExecCommand "Goto" "auth_failure,1"))).
Proof.
  split; [by eexists|].
  intros pin rest caller_id. subst caller_id. unfold main.
  destruct (backend pin (default "unknown" (head rest)))
    as [code [j|err]|err|] eqn:Hb; cbn [client_post].
  - destruct (decide (code = 200%Z)) as [->|Hcode].
    + rewrite decide_True by done. cbn [resp_json].
      destruct (json_get "status" j) as [[[]|]|err] eqn:Hj;
        try destruct (decide (_ = "success")) as [->|?];
        (eexists; split; [reflexivity|]; cbn [agi_posted agi_exit agi_commands last];
         agi_cases).
    + rewrite decide_False by done.
      eexists; split; [reflexivity|]; cbn [agi_posted agi_exit agi_commands last];
        agi_cases.
  - destruct (decide (code = 200%Z)) as [->|Hcode].
    + rewrite decide_True by done. cbn [resp_json].
      eexists; split; [reflexivity|]; cbn [agi_posted agi_exit agi_commands last];
        agi_cases.
    + rewrite decide_False by done.
      eexists; split; [reflexivity|]; cbn [agi_posted agi_exit agi_commands last];
        agi_cases.
  - eexists; split; [reflexivity|]; cbn [agi_posted agi_exit agi_commands last];
      agi_cases.
  - eexists; split; [reflexivity|]; cbn [agi_posted agi_exit agi_commands last];
      agi_cases.
Qed.

Section ClientAndBackend.

Variable cfg : config.

(** X23.  The script against the backend.  A caller whose address has
    used up its attempts is sent to [auth_failure] whatever PIN was
    entered.  A caller let through with an empty PIN, or with one that no
    user has, is sent to [auth_failure].  A caller with a known PIN, all
    databases working, while the telephony provider does not answer,
    hears the error prompt after the script's timeout, although the ledger
    already shows that caller on call. *)
Theorem agi_against_backend now e ip s pin rest :
  let r := main (pin :: rest) (backend_at cfg now e ip s) in
  let kept := recent now (default [] (ip_request_counter s !! ip)) in
  let s' :=
    (authenticate_route cfg now e
       (mk_request ip (Some pin) (Some (default "unknown" (head rest))) None)
       s).2 in
  ((RATE_LIMIT <= length kept)%nat ->
   ends_with r (ExecCommand "Goto" "auth_failure,1"))
  /\ ((length kept < RATE_LIMIT)%nat ->
      conn_fault (users_conn e) = None ->
      pin = "" \/
      select_user_by_pin (salted_digest cfg pin) (committed s) = None ->
      ends_with r (ExecCommand "Goto" "auth_failure,1"))
  /\ (forall u,
        (length kept < RATE_LIMIT)%nat -> pin <> "" ->
        select_user_by_pin (salted_digest cfg pin) (committed s) = Some u ->
        conn_fault (users_conn e) = None ->
        conn_fault (on_call_conn (assign e)) = None ->
        telepo (assign e) = Stalls ->
        ends_with r (ExecCommand "Playback" "custom/system-error")
        /\ oc_phone <$> open_rows (u_division u) (committed s')
           = [u_phone u]).
Proof.
  intros r kept s'. subst r kept s'. unfold main, backend_at.
  split; [|split].
  - intros Hfull. rewrite route_rejected by done. by eexists.
  - intros Hroom Hnf Hpin. rewrite route_accepted by done.
    destruct Hpin as [->|Hnone]; [by eexists|].
    destruct pin as [|a pin]; [by eexists|].
    erewrite authenticate_not_found by (done || by apply no_fault_before_None).
    by eexists.
  - intros u Hroom Hne Hu Hnf1 Hnf2 Hstall. rewrite route_accepted by done.
    rewrite (authenticate_found cfg e _ _ pin u)
      by (done || by apply no_fault_before_None).
    unfold bind. rewrite assign_faultless;
      [|by apply no_fault_before_None
       |simpl; rewrite touch_keeps_ids; apply list_elem_of_fmap_2;
        by apply select_user_elem in Hu as [? _]].
    rewrite Hstall. cbn [telepo_result flask_reply client_post fst snd committed].
    split; [by eexists|].
    by rewrite open_rows_assigned.
Qed.

End ClientAndBackend.

(** ** Instances of the further properties *)

Lemma hand_over_witness :
  open_rows "retic_water"
    (committed
       (set_on_call_number demo_cfg "+15559876543" 2 "retic_water" "10.0.0.1"
          (mk_assign_env (working 201) accepting 202)
          (set_on_call_number demo_cfg "+15551234567" 1 "retic_water"
             "10.0.0.1" (mk_assign_env (working 101) accepting 102)
             seeded).2).2)
  = [mk_on_call 2 "+15559876543" (Some 2%Z) "retic_water" (Some 201%Z) None].
Proof.
  destruct (hand_over demo_cfg "+15551234567" 1 "10.0.0.1"
              (mk_assign_env (working 101) accepting 102)
              "+15559876543" 2 "10.0.0.1"
              (mk_assign_env (working 201) accepting 202)
              "retic_water" seeded) as [_ Hopen];
    [reflexivity | reflexivity | apply list_elem_of_here
    | apply list_elem_of_further, list_elem_of_here | exact Hopen].
Defined.

Lemma rate_limit_is_per_address_witness :
  ip_request_counter
    (serve demo_cfg [(1%Z, smooth, call "10.0.0.1" (Some "0000"));
                     (2%Z, smooth, call "10.0.0.1" None)] seeded).2
    !! "10.0.0.7" = None.
Proof.
  rewrite (rate_limit_is_per_address demo_cfg _ "10.0.0.7" seeded);
    [reflexivity|].
  repeat constructor; discriminate.
Defined.

Lemma window_slides_witness :
  authenticate_route demo_cfg 100 smooth (call "10.0.0.1" None)
    (mk_state {[ "10.0.0.1" := [1; 2; 3; 4; 5]%Z ]} (committed seeded)
              (seqs seeded) None [])
  = (Ok pin_required,
     mk_state (<[ "10.0.0.1" := [100%Z] ]>
                 {[ "10.0.0.1" := [1; 2; 3; 4; 5]%Z ]})
              (committed seeded) (seqs seeded) None []).
Proof.
  rewrite (window_slides demo_cfg); [reflexivity|].
  intros t Ht. vm_compute in Ht.
  repeat (apply elem_of_cons in Ht as [->|Ht]; [lia|]).
  by apply not_elem_of_nil in Ht.
Defined.

Lemma authenticate_database_failure_witness :
  (authenticate demo_cfg
     (mk_auth_env (failing 100) (mk_assign_env (working 101) accepting 102))
     (call "10.0.0.1" (Some "1234")) seeded).1
  = Ok (server_error "server closed the connection unexpectedly").
Proof.
  apply (authenticate_database_failure demo_cfg
           (mk_auth_env (failing 100)
              (mk_assign_env (working 101) accepting 102))
           (call "10.0.0.1" (Some "1234")) seeded "1234" 1);
    [reflexivity | discriminate | reflexivity | lia].
Defined.

Lemma login_recorded_first_witness :
  u_last_login <$>
    users (committed
             (authenticate demo_cfg
                (mk_auth_env (working 100)
                   (mk_assign_env (unreachable 101) accepting 102))
                (call "10.0.0.1" (Some "1234")) seeded).2)
  = [Some 100%Z; None].
Proof.
  destruct (login_recorded_first demo_cfg
              (mk_auth_env (working 100)
                 (mk_assign_env (unreachable 101) accepting 102))
              (call "10.0.0.1" (Some "1234")) seeded "1234" admin_user)
    as [Husers _];
    [reflexivity | discriminate | vm_compute; reflexivity | reflexivity |].
  rewrite Husers. vm_compute. reflexivity.
Defined.

Lemma query_read_only_witness :
  (get_current_oncall (working 10) (mk_request "10.0.0.9" None None None)
     seeded).1
  = Ok (mk_response 404
          (error_dict "No on-call user set for division=retic_water")).
Proof.
  destruct (query_read_only (working 10)
              (mk_request "10.0.0.9" None None None) seeded)
    as (_ & _ & _ & Hnone & _).
  apply Hnone; reflexivity.
Defined.

Lemma token_required_bearer_witness :
  token_required demo_acfg admin_list_users (at_work 60 0)
    (bearer (demo_token +:+ "Bearer anything") None) seeded
  = admin_list_users (at_work 60 0)
      (bearer (demo_token +:+ "Bearer anything") None) seeded.
Proof.
  destruct (token_required_bearer demo_acfg admin_list_users (at_work 60 0)
              (bearer (demo_token +:+ "Bearer anything") None) seeded)
    as [_ Hrun].
  rewrite (Hrun demo_token "Bearer anything");
    [reflexivity | reflexivity | vm_compute; repeat split; discriminate
    | right; by exists "anything"].
Defined.

Lemma issued_token_opens_api_witness :
  token_required demo_acfg get_users (at_work 500 0)
    (bearer demo_token None) seeded
  = get_users (at_work 500 0) (bearer demo_token None) seeded.
Proof.
  destruct (issued_token_opens_api demo_acfg 100
              (mk_api_request "10.0.0.2" None
                 (Some (Some "admin", Some "secure_password")) None))
    as [_ Hopen];
    [reflexivity | discriminate | vm_compute; repeat split; discriminate
    | intros later _; reflexivity |].
  apply Hopen; [reflexivity | simpl; lia].
Defined.

Lemma create_user_needs_all_fields_witness :
  create_user demo_cfg (at_work 50 3)
    (bearer demo_token (Some (delete "phone" new_hire))) seeded
  = (Ok (Answer missing_fields), seeded).
Proof.
  apply create_user_needs_all_fields. right.
  exists (delete "phone" new_hire), "phone".
  split; [reflexivity|]. split; [|vm_compute; reflexivity].
  apply list_elem_of_further, list_elem_of_here.
Defined.


Lemma create_user_all_or_nothing_witness :
  committed
    (create_user demo_cfg (at_work 50 1)
       (bearer demo_token (Some new_hire)) seeded).2
  = committed seeded.
Proof.
  destruct (create_user_all_or_nothing demo_cfg (at_work 50 1)
              (bearer demo_token (Some new_hire)) seeded new_hire "2468"
              (Some "+15552468000") (Some "New Hire") (Some "retic_water"))
    as (msg & _ & Hsame);
    [reflexivity | vm_compute; reflexivity | vm_compute; reflexivity
    | vm_compute; reflexivity | vm_compute; reflexivity | | exact Hsame].
  right. split; [exact I|]. right. right. apply list_elem_of_here.
Defined.

Lemma admin_update_all_or_nothing_witness :
  committed
    (admin_update_user demo_cfg demo_acfg 1
       (mk_admin_env 60 (failing 60) 0)
       (bearer demo_token (Some phone_change)) seeded).2
  = committed seeded.
Proof.
  destruct (admin_update_all_or_nothing demo_cfg demo_acfg 1
              (mk_admin_env 60 (failing 60) 0)
              (bearer demo_token (Some phone_change)) seeded phone_change
              None)
    as (msg & _ & Hsame); [reflexivity | | | exact Hsame].
  - left. split; [vm_compute; reflexivity|]. split; [reflexivity|].
    left. by eexists.
  - left. exists 1%nat, "server closed the connection unexpectedly".
    split; [reflexivity|]. split; [lia|]. apply list_elem_of_here.
Defined.

Lemma update_unknown_user_witness :
  committed
    (admin_update_user demo_cfg demo_acfg 7 (at_work 60 0)
       (bearer demo_token (Some phone_change)) seeded).2
  = committed seeded.
Proof.
  destruct (update_unknown_user demo_cfg demo_acfg 7 (at_work 60 0)
              (bearer demo_token (Some phone_change)) seeded phone_change
              None)
    as [_ Hsame]; [reflexivity | | | reflexivity | exact Hsame].
  - left. split; [vm_compute; reflexivity|]. split; [reflexivity|].
    left. by eexists.
  - intros Hin. vm_compute in Hin.
    repeat (apply elem_of_cons in Hin as [Hin|Hin]; [discriminate|]).
    by apply not_elem_of_nil in Hin.
Defined.

Lemma update_changes_only_listed_witness :
  on_call
    (committed
       (admin_update_user demo_cfg demo_acfg 1 (at_work 60 0)
          (bearer demo_token (Some phone_change)) seeded).2)
  = on_call (committed seeded).
Proof.
  destruct (update_changes_only_listed demo_cfg demo_acfg 1 (at_work 60 0)
              (bearer demo_token (Some phone_change)) seeded phone_change
              None)
    as [Hoc _];
    [reflexivity | | apply list_elem_of_here | vm_compute; discriminate
    | vm_compute; discriminate | reflexivity | exact Hoc].
  left. split; [vm_compute; reflexivity|]. split; [reflexivity|].
  left. by eexists.
Defined.

Lemma pin_change_round_trip_witness :
  exists v,
    select_user_by_pin (salted_digest demo_cfg "4321")
      (committed
         (admin_update_user demo_cfg demo_acfg 1 (at_work 60 0)
            (bearer demo_token (Some pin_change)) seeded).2) = Some v
    /\ u_id v = 1%Z.
Proof.
  destruct (pin_change_round_trip demo_cfg demo_acfg 1 (at_work 60 0)
              (bearer demo_token (Some pin_change)) seeded pin_change "4321")
    as [Hnew _];
    [reflexivity | vm_compute; reflexivity | apply list_elem_of_here
    | vm_compute; discriminate | vm_compute; discriminate | reflexivity
    | | exact Hnew].
  intros u Hu. vm_compute in Hu.
  repeat (apply elem_of_cons in Hu as [->|Hu];
          [intros ?; vm_compute; discriminate|]).
  by apply not_elem_of_nil in Hu.
Defined.

Lemma get_users_hides_digest_witness :
  exists rows,
    (get_users (at_work 60 0) (bearer demo_token None) seeded).1
      = Ok (UserList rows)
    /\ length rows = 2%nat.
Proof.
  destruct (get_users_hides_digest (at_work 60 0) (bearer demo_token None)
              seeded) as (_ & _ & Hrows).
  destruct (Hrows eq_refl) as (rows & Hok & Hall).
  exists rows. split; [exact Hok|].
  symmetry. exact (Forall2_length _ _ _ Hall).
Defined.

Lemma admin_list_users_sorted_witness :
  exists sorted,
    (admin_list_users (at_work 60 0) (bearer demo_token None) shared_pin).1
      = Ok (UserList (user_row_json <$> sorted))
    /\ Sorted id_le sorted.
Proof.
  destruct (admin_list_users_sorted (at_work 60 0) (bearer demo_token None)
              shared_pin) as (_ & _ & Hrows).
  destruct (Hrows eq_refl) as (sorted & Hok & _ & Hsorted & _).
  exists sorted. split; [exact Hok|exact Hsorted].
Defined.

Lemma ledger_is_append_only_witness :
  let s' :=
    (token_required demo_acfg (create_user demo_cfg) (at_work 150 3)
       (bearer demo_token (Some new_hire))
       (authenticate_route demo_cfg 99 smooth (call "10.0.0.1" (Some "5678"))
          in_service).2).2 in
  (exists kept more,
     on_call (committed s') = (kept ++ more)%list /\
     Forall2
       (fun o o' =>
          oc_id o' = oc_id o /\ oc_phone o' = oc_phone o /\
          oc_user_id o' = oc_user_id o /\ oc_division o' = oc_division o /\
          oc_start_time o' = oc_start_time o /\
          (oc_end_time o <> None -> oc_end_time o' = oc_end_time o))
       [mk_on_call 1 "+15550000000" (Some 1%Z) "retic_water"
                   (Some 10%Z) (Some 30%Z);
        mk_on_call 2 "+15559876543" (Some 2%Z) "surface_water"
                   (Some 20%Z) None;
        mk_on_call 3 "+15551234567" (Some 1%Z) "retic_water"
                   (Some 30%Z) None]
       kept)
  /\ on_call (committed s')
     = [mk_on_call 1 "+15550000000" (Some 1%Z) "retic_water"
                   (Some 10%Z) (Some 30%Z);
        mk_on_call 2 "+15559876543" (Some 2%Z) "surface_water"
                   (Some 20%Z) (Some 101%Z);
        mk_on_call 3 "+15551234567" (Some 1%Z) "retic_water"
                   (Some 30%Z) None;
        mk_on_call 4 "+15559876543" (Some 2%Z) "surface_water"
                   (Some 101%Z) None].
Proof.
  split; [|vm_compute; reflexivity].
  apply (ledger_is_append_only demo_cfg demo_acfg in_service).
  eapply rtc_l; [apply api_authenticate|apply rtc_once, api_create_user].
Defined.

Lemma audit_log_is_append_only_witness :
  exists more,
    audit_log
      (committed
         (token_required demo_acfg (create_user demo_cfg) (at_work 150 3)
            (bearer demo_token (Some new_hire))
            (authenticate_route demo_cfg 99 smooth
               (call "10.0.0.1" (Some "0000")) in_service).2).2)
    = ([mk_audit 1 "successful_auth" (Some 1%Z) (Some "Caller ID: unknown")
                 (Some "10.0.0.1") (Some 29%Z);
        mk_audit 2 "on_call_update" (Some 1%Z)
                 (Some "New on-call: +15551234567 (division=retic_water)")
                 (Some "10.0.0.1") (Some 30%Z)] ++ more)%list.
Proof.
  apply (audit_log_is_append_only demo_cfg demo_acfg in_service).
  eapply rtc_l; [apply api_authenticate|apply rtc_once, api_create_user].
Defined.

Lemma single_open_row_under_api_witness :
  ledger_invariant (committed in_service) /\
  forall division,
    (length
       (open_rows division
          (committed
             (token_required demo_acfg
                (admin_update_user demo_cfg demo_acfg 1) (at_work 160 0)
                (bearer demo_token (Some phone_change))
                (authenticate_route demo_cfg 99 smooth
                   (call "10.0.0.1" (Some "1234")) in_service).2).2))
     <= 1)%nat.
Proof.
  assert (Hs : ledger_invariant (committed in_service)).
  { intros d. unfold open_rows. simpl.
    rewrite !filter_cons, filter_nil.
    repeat case_decide; simpl;
      repeat match goal with
             | H : is_open_for _ _ |- _ => destruct H as [? ?]
             end;
      simpl in *; first [discriminate | congruence | repeat constructor]. }
  split; [exact Hs|].
  apply (single_open_row_under_api demo_cfg demo_acfg in_service);
    [exact Hs|].
  eapply rtc_l; [apply api_authenticate|apply rtc_once, api_admin_update_user].
Defined.

Lemma agi_decision_witness :
  exists run,
    main ["1234"; "+15550009999"]
      (fun _ _ => Replied 200 (inl (JObj [("status", JStr "success")])))
      = Ok run
    /\ last (agi_commands run) = Some (ExecCommand "Goto" "auth_success,1").
Proof.
  destruct (agi_decision
              (fun _ _ => Replied 200 (inl (JObj [("status", JStr "success")]))))
    as [_ Hrun].
  destruct (Hrun "1234" ["+15550009999"]) as (run & Hmain & _ & _ & Hok & _).
  exists run. split; [exact Hmain|].
  apply Hok. eexists. split; reflexivity.
Defined.

Lemma agi_against_backend_witness :
  ends_with
    (main ["0000"] (backend_at demo_cfg 5 smooth "10.0.0.5" seeded))
    (ExecCommand "Goto" "auth_failure,1").
Proof.
  destruct (agi_against_backend demo_cfg 5 smooth "10.0.0.5" seeded "0000" [])
    as (_ & Hunknown & _).
  apply Hunknown; [vm_compute; lia | reflexivity|].
  right. vm_compute. reflexivity.
Defined.

Section UpdateValidation.

Variable cfg : config.
Variable acfg : admin_config.

(** X24.  An update without a body or with an empty body is answered 400
    ("No update data provided"), and one whose body names none of [phone],
    [name], [email], [division], [pin] is answered 400 ("No valid fields
    to update"); in both cases the state is exactly as before, so the
    database is not called. *)
Theorem update_needs_fields user_id e rq s :
  (request_json rq = None \/ request_json rq = Some ∅ ->
   admin_update_user cfg acfg user_id e rq s = (Ok (Answer no_update_data), s))
  /\
  (forall data,
     request_json rq = Some data -> data <> ∅ ->
     (forall k, k ∈ ["phone"; "name"; "email"; "division"; "pin"] ->
                data !! k = None) ->
     admin_update_user cfg acfg user_id e rq s
       = (Ok (Answer no_valid_fields), s)).
Proof.
  split.
  - intros [Hd|Hd]; unfold admin_update_user; rewrite Hd; [done|].
    by rewrite decide_True.
  - intros data Hd Hne Hkeys. unfold admin_update_user. rewrite Hd.
    rewrite decide_False by done.
    assert (Hk : forall k, k ∈ ["phone"; "name"; "email"; "division"; "pin"]
                           -> data !! k = None) by exact Hkeys.
    rewrite (Hk "pin") by (do 4 apply list_elem_of_further; apply list_elem_of_here).
    unfold bind, ret.
    rewrite decide_True; [done|].
    unfold no_columns. cbn [set_phone set_name set_email set_division set_pin].
    repeat split; try done; apply Hk;
      repeat first [apply list_elem_of_here | apply list_elem_of_further].
Qed.

End UpdateValidation.

Lemma update_needs_fields_witness :
  admin_update_user demo_cfg demo_acfg 1 (at_work 60 0)
    (bearer demo_token (Some {[ "role" := Some "boss" ]})) seeded
  = (Ok (Answer no_valid_fields), seeded).
Proof.
  destruct (update_needs_fields demo_cfg demo_acfg 1 (at_work 60 0)
              (bearer demo_token (Some {[ "role" := Some "boss" ]})) seeded)
    as [_ Hnone].
  apply (Hnone {[ "role" := Some "boss" ]}); [reflexivity | | ].
  - intros Hempty. apply (f_equal (fun m => m !! "role")) in Hempty.
    vm_compute in Hempty. discriminate.
  - intros k Hk.
    repeat (apply elem_of_cons in Hk as [->|Hk]; [vm_compute; reflexivity|]).
    by apply not_elem_of_nil in Hk.
Defined.
